(* Shallow embedding of RESTStore (src/unnamed/part_000): the refresh
   coordinator, the session watcher, response normalisation of fetch and
   upload, and the handling of the option flags. *)

From Stdlib Require Import ZArith List String Ascii Bool Lia.
Import ListNotations.
Open Scope string_scope.
Open Scope Z_scope.
Set Warnings "-register-all".

(* ------------------------------------------------------------------ *)
(** * JavaScript values *)

(** JSON values as JSON.parse produces them; objects keep their key order
    and hold each key once (as a JS object does). Numbers are integers:
    the statuses, timestamps and bodies used below never need fractions. *)
Inductive json : Type :=
| JNull : json
| JBool : bool -> json
| JNum : Z -> json
| JStr : string -> json
| JArr : list json -> json
| JObj : list (string * json) -> json.

(** A JS value as the code reads it: [None] is [undefined]. *)
Definition jsval := option json.

(** JS truthiness. *)
Definition truthy (v : jsval) : bool :=
  match v with
  | None => false
  | Some JNull => false
  | Some (JBool b) => b
  | Some (JNum z) => negb (Z.eqb z 0)
  | Some (JStr s) => negb (String.eqb s EmptyString)
  | Some (JArr _) => true
  | Some (JObj _) => true
  end.

(** Property lookup on an object ([o.k]). *)
Fixpoint obj_get (o : list (string * json)) (k : string) : jsval :=
  match o with
  | [] => None
  | (k', v) :: o' => if String.eqb k k' then Some v else obj_get o' k
  end.

(** [v.k]: only objects carry the named properties used here. *)
Definition js_get (v : jsval) (k : string) : jsval :=
  match v with
  | Some (JObj o) => obj_get o k
  | _ => None
  end.

(** [o[k] = v]: overwrite in place, or append a new key at the end. *)
Fixpoint obj_set (o : list (string * json)) (k : string) (v : json)
  : list (string * json) :=
  match o with
  | [] => [(k, v)]
  | (k', v') :: o' =>
      if String.eqb k k' then (k', v) :: o' else (k', v') :: obj_set o' k v
  end.

(** Object spread [{...a, ...b}]. *)
Definition obj_spread (a b : list (string * json)) : list (string * json) :=
  fold_left (fun acc kv => obj_set acc (fst kv) (snd kv)) b a.

(** Rest pattern [{k1, k2, ...rest} = o]: the keys not destructured. *)
Definition obj_rest (o : list (string * json)) (ks : list string)
  : list (string * json) :=
  filter (fun kv => negb (existsb (String.eqb (fst kv)) ks)) o.

(** Decimal rendering of an integer, as [`${n}`] and JSON.stringify print it. *)
Fixpoint digits_rev (fuel : nat) (n : Z) (acc : string) : string :=
  match fuel with
  | O => acc
  | S f =>
      let acc' := String (ascii_of_nat (48 + Z.to_nat (n mod 10))) acc in
      if n <? 10 then acc' else digits_rev f (n / 10) acc'
  end.

Definition z_to_string (n : Z) : string :=
  if n <? 0
  then "-" ++ digits_rev (S (Z.to_nat (Z.log2 (- n)))) (- n) EmptyString
  else digits_rev (S (Z.to_nat (Z.log2 n))) n EmptyString.

Definition quote_char : ascii := ascii_of_nat 34.
Definition backslash_char : ascii := ascii_of_nat 92.
Definition newline_char : ascii := ascii_of_nat 10.

(** String escaping of JSON.stringify for quote, backslash and newline. *)
Fixpoint escape_json (s : string) : string :=
  match s with
  | EmptyString => EmptyString
  | String c s' =>
      if Ascii.eqb c quote_char then String backslash_char (String quote_char (escape_json s'))
      else if Ascii.eqb c backslash_char then String backslash_char (String backslash_char (escape_json s'))
      else if Ascii.eqb c newline_char then String backslash_char (String "n"%char (escape_json s'))
      else String c (escape_json s')
  end.

Definition json_quote (s : string) : string :=
  String quote_char (escape_json s ++ String quote_char EmptyString).

(** JSON.stringify. *)
Fixpoint stringify (v : json) : string :=
  match v with
  | JNull => "null"
  | JBool true => "true"
  | JBool false => "false"
  | JNum z => z_to_string z
  | JStr s => json_quote s
  | JArr l =>
      "[" ++ String.concat "," (map stringify l) ++ "]"
  | JObj o =>
      "{" ++ String.concat ","
        (map (fun kv => json_quote (fst kv) ++ ":" ++ stringify (snd kv)) o)
      ++ "}"
  end.

(** [String(v)], the message [new Error(v)] keeps. *)
Fixpoint js_String (v : json) : string :=
  match v with
  | JNull => "null"
  | JBool true => "true"
  | JBool false => "false"
  | JNum z => z_to_string z
  | JStr s => s
  | JArr l => String.concat "," (map js_String l)
  | JObj _ => "[object Object]"
  end.

(* ------------------------------------------------------------------ *)
(** * responseErrorMsg (part_000, lines 28-36) *)

(** The message is a JS value: the body's own field when one is truthy,
    otherwise the template string. *)
Definition responseErrorMsg (status : Z) (body : json) : json :=
  if truthy (Some body) && truthy (js_get (Some body) "error_description")
  then match js_get (Some body) "error_description" with
       | Some m => m | None => JNull end
  else if truthy (Some body) && truthy (js_get (Some body) "error")
  then match js_get (Some body) "error" with
       | Some m => m | None => JNull end
  else JStr (z_to_string status ++ " - " ++ stringify body).

Example responseErrorMsg_500 :
  responseErrorMsg 500 (JObj []) = JStr "500 - {}".
Proof. reflexivity. Qed.

(* ------------------------------------------------------------------ *)
(** * JSON.parse *)

(** JSON.parse on the JSON this model's values cover: literals, integer
    numbers, strings with the single-character escapes, arrays and objects
    (a repeated key keeps its first position and its last value, as in JS).
    Texts with fractional or exponent numbers or [\u] escapes fall outside
    the model and are refused. *)
Module JsonParse.

Definition is_ws (c : ascii) : bool :=
  match c with
  | " "%char => true
  | "009"%char => true
  | "010"%char => true
  | "013"%char => true
  | _ => false
  end.

Fixpoint skip_ws (l : list ascii) : list ascii :=
  match l with
  | c :: r => if is_ws c then skip_ws r else l
  | [] => []
  end.

Definition digit_val (c : ascii) : option Z :=
  let n := Z.of_nat (nat_of_ascii c) in
  if (48 <=? n) && (n <=? 57) then Some (n - 48) else None.

Fixpoint parse_digits (l : list ascii) (acc : Z) : Z * list ascii :=
  match l with
  | c :: r =>
      match digit_val c with
      | Some d => parse_digits r (acc * 10 + d)
      | None => (acc, l)
      end
  | [] => (acc, [])
  end.

(** A number literal is accepted only when no fraction or exponent follows. *)
Definition end_of_int (l : list ascii) : bool :=
  match l with
  | "."%char :: _ | "e"%char :: _ | "E"%char :: _ => false
  | _ => true
  end.

Definition parse_nat_lit (l : list ascii) : option (Z * list ascii) :=
  match l with
  | "0"%char :: r => if end_of_int r then Some (0, r) else None
  | c :: r =>
      match digit_val c with
      | Some d =>
          let '(n, r') := parse_digits r d in
          if end_of_int r' then Some (n, r') else None
      | None => None
      end
  | [] => None
  end.

Definition parse_number (l : list ascii) : option (json * list ascii) :=
  match l with
  | "-"%char :: r =>
      match parse_nat_lit r with Some (n, r') => Some (JNum (- n), r') | None => None end
  | _ =>
      match parse_nat_lit l with Some (n, r') => Some (JNum n, r') | None => None end
  end.

(** The body of a string literal, after its opening quote. *)
Fixpoint parse_chars (l : list ascii) : option (list ascii * list ascii) :=
  match l with
  | [] => None
  | c :: r =>
      if Ascii.eqb c quote_char then Some ([], r)
      else if Ascii.eqb c backslash_char then
        match r with
        | e :: r' =>
            let esc :=
              if Ascii.eqb e quote_char then Some quote_char
              else if Ascii.eqb e backslash_char then Some backslash_char
              else match e with
              | "/"%char => Some "/"%char
              | "b"%char => Some "008"%char
              | "f"%char => Some "012"%char
              | "n"%char => Some "010"%char
              | "r"%char => Some "013"%char
              | "t"%char => Some "009"%char
              | _ => None
              end in
            match esc with
            | Some x =>
                match parse_chars r' with
                | Some (s, r'') => Some (x :: s, r'')
                | None => None
                end
            | None => None
            end
        | [] => None
        end
      else if (nat_of_ascii c <? 32)%nat then None
      else match parse_chars r with
           | Some (s, r') => Some (c :: s, r')
           | None => None
           end
  end.

Definition parse_string (l : list ascii) : option (string * list ascii) :=
  match l with
  | c :: r =>
      if Ascii.eqb c quote_char then
        match parse_chars r with
        | Some (s, r') => Some (string_of_list_ascii s, r')
        | None => None
        end
      else None
  | [] => None
  end.

Fixpoint parse_value (fuel : nat) (l : list ascii) : option (json * list ascii) :=
  match fuel with
  | O => None
  | S f =>
      match skip_ws l with
      | "n"%char :: "u"%char :: "l"%char :: "l"%char :: r => Some (JNull, r)
      | "t"%char :: "r"%char :: "u"%char :: "e"%char :: r => Some (JBool true, r)
      | "f"%char :: "a"%char :: "l"%char :: "s"%char :: "e"%char :: r =>
          Some (JBool false, r)
      | "["%char :: r =>
          match skip_ws r with
          | "]"%char :: r' => Some (JArr [], r')
          | _ => parse_elems f [] r
          end
      | "{"%char :: r =>
          match skip_ws r with
          | "}"%char :: r' => Some (JObj [], r')
          | _ => parse_members f [] r
          end
      | l' =>
          match parse_string l' with
          | Some (s, r) => Some (JStr s, r)
          | None => parse_number l'
          end
      end
  end
(** Elements of an array: a value, then [,] and more or [\]]. *)
with parse_elems (fuel : nat) (acc : list json) (l : list ascii)
  : option (json * list ascii) :=
  match fuel with
  | O => None
  | S f =>
      match parse_value f l with
      | Some (v, r) =>
          match skip_ws r with
          | ","%char :: r' => parse_elems f (acc ++ [v]) r'
          | "]"%char :: r' => Some (JArr (acc ++ [v]), r')
          | _ => None
          end
      | None => None
      end
  end
(** Members of an object: a key, [:], a value, then [,] and more or [}]. *)
with parse_members (fuel : nat) (acc : list (string * json)) (l : list ascii)
  : option (json * list ascii) :=
  match fuel with
  | O => None
  | S f =>
      match parse_string (skip_ws l) with
      | Some (k, r) =>
          match skip_ws r with
          | ":"%char :: r1 =>
              match parse_value f r1 with
              | Some (v, r2) =>
                  match skip_ws r2 with
                  | ","%char :: r' => parse_members f (obj_set acc k v) r'
                  | "}"%char :: r' => Some (JObj (obj_set acc k v), r')
                  | _ => None
                  end
              | None => None
              end
          | _ => None
          end
      | None => None
      end
  end.

End JsonParse.

(** [JSON.parse(text)]: [None] where it throws a SyntaxError. *)
Definition JSON_parse (text : string) : option json :=
  let l := list_ascii_of_string text in
  match JsonParse.parse_value (2 * List.length l + 2) l with
  | Some (v, r) =>
      match JsonParse.skip_ws r with [] => Some v | _ => None end
  | None => None
  end.

Definition dq : string := String quote_char EmptyString.

Example JSON_parse_obj :
  JSON_parse ("{" ++ dq ++ "id" ++ dq ++ ": 1, " ++ dq ++ "e" ++ dq ++
              ": [true, null, -20, " ++ dq ++ "a\" ++ dq ++ "b" ++ dq ++ "]}") =
  Some (JObj [("id", JNum 1);
              ("e", JArr [JBool true; JNull; JNum (-20); JStr ("a" ++ dq ++ "b")])]).
Proof. reflexivity. Qed.

Example JSON_parse_html : JSON_parse "<html>Bad Gateway</html>" = None.
Proof. reflexivity. Qed.

(* ------------------------------------------------------------------ *)
(** * Store state *)

(** part_000, lines 6-8. *)
Definition REFRESH_TIMEOUT : Z := 900000 - 3.
Definition ACCESS_TIMEOUT : Z := 60000 - 3.

(** A rejection reason: an [Error] with the properties the code attaches,
    or a plain value ([reject(JSON.parse(...))] in upload). *)
Record js_error := mkError {
  err_message : string;
  err_status : option Z;
  err_body : jsval
}.

Inductive reason :=
| RError : js_error -> reason
| RValue : json -> reason
| RSyntaxError : reason.

(** State of a promise; [Pending] at the end of a run means it never settles. *)
Inductive pstate :=
| Pending : pstate
| Fulfilled : jsval -> pstate
| Rejected : reason -> pstate.

(** The RESTStore instance together with what it touches: the
    localStorage key [auth.lastRefreshed] ([None] when absent; it only ever
    holds [Date.now()] written by [updateLastRefresh]), the table of
    promises created by [refresh], and the refresh network calls issued
    ([refresh_log]) and not yet answered ([awaiting]). *)
Record store := mkStore {
  lastRefreshed : option Z;
  expired : bool;
  status : Z;
  error : json;
  progress : Z;
  uploadError : string;
  refreshPromise : option nat;
  promises : list (nat * pstate);
  refresh_log : list nat;
  awaiting : list nat;
  next_id : nat
}.

(** Field initialisers of the class (lines 41-47). *)
Definition initial_store (stored : option Z) : store :=
  mkStore stored false 200 (JStr EmptyString) 0 EmptyString None [] [] [] 0.

Fixpoint promise_state (tbl : list (nat * pstate)) (p : nat) : pstate :=
  match tbl with
  | [] => Pending
  | (q, st) :: tbl' => if Nat.eqb p q then st else promise_state tbl' p
  end.

Definition set_expired (b : bool) (s : store) : store :=
  mkStore s.(lastRefreshed) b s.(status) s.(error) s.(progress) s.(uploadError)
    s.(refreshPromise) s.(promises) s.(refresh_log) s.(awaiting) s.(next_id).

Definition set_status (n : Z) (s : store) : store :=
  mkStore s.(lastRefreshed) s.(expired) n s.(error) s.(progress) s.(uploadError)
    s.(refreshPromise) s.(promises) s.(refresh_log) s.(awaiting) s.(next_id).

Definition set_error (m : json) (s : store) : store :=
  mkStore s.(lastRefreshed) s.(expired) s.(status) m s.(progress) s.(uploadError)
    s.(refreshPromise) s.(promises) s.(refresh_log) s.(awaiting) s.(next_id).

Definition set_uploadError (m : string) (s : store) : store :=
  mkStore s.(lastRefreshed) s.(expired) s.(status) s.(error) s.(progress) m
    s.(refreshPromise) s.(promises) s.(refresh_log) s.(awaiting) s.(next_id).

(** [getLastRefresh] (lines 237-239): [Number(localStorage.getItem(...))];
    [Number(null)] is 0. *)
Definition getLastRefresh (s : store) : Z :=
  match s.(lastRefreshed) with Some t => t | None => 0 end.

(** [updateLastRefresh] (lines 241-244) at time [now]. *)
Definition updateLastRefresh (now : Z) (s : store) : store :=
  mkStore (Some now) s.(expired) s.(status) s.(error) s.(progress) s.(uploadError)
    s.(refreshPromise) s.(promises) s.(refresh_log) s.(awaiting) s.(next_id).

(* ------------------------------------------------------------------ *)
(** * Refresh coordinator: [refresh] (lines 198-232) *)

(** What the async [refresh()] returns: a promise already fulfilled with
    [undefined], or one that follows the in-flight promise [p]. *)
Inductive refresh_ret :=
| RetUndefined : refresh_ret
| RetFollows : nat -> refresh_ret.

(** One call of [refresh()] at time [now]. A stale token starts the
    promise [p]: the clock is written, [p] is stored as [refreshPromise] and
    its executor runs up to [await window.fetch('/api/auth/refresh')], so the
    network call is issued before [refresh()] returns. *)
Definition refresh (now : Z) (s : store) : store * refresh_ret :=
  match s.(refreshPromise) with
  | Some p => (s, RetFollows p)
  | None =>
      if now <? getLastRefresh s + ACCESS_TIMEOUT then (s, RetUndefined)
      else
        let s1 := updateLastRefresh now s in
        let p := s1.(next_id) in
        (mkStore s1.(lastRefreshed) s1.(expired) s1.(status) s1.(error)
           s1.(progress) s1.(uploadError) (Some p) ((p, Pending) :: s1.(promises))
           (s1.(refresh_log) ++ [p]) (s1.(awaiting) ++ [p]) (S p),
         RetFollows p)
  end.

(** A Response object: its status, the text of its body, and
    [response.json()], which is [JSON.parse] of that text. *)
Record response := mkResponse {
  resp_status : Z;
  resp_text : string
}.

Definition resp_json (r : response) : option json := JSON_parse r.(resp_text).

(** Outcome of a window.fetch call: a Response, or a rejection of the
    fetch itself (network failure). *)
Inductive net_result :=
| NetFailure : net_result
| NetResponse : response -> net_result.

(** Settle promise [p] and run its [.finally], which clears
    [refreshPromise] unconditionally. *)
Definition finish_refresh (p : nat) (st : pstate) (s : store) : store :=
  mkStore s.(lastRefreshed) s.(expired) s.(status) s.(error) s.(progress)
    s.(uploadError) None ((p, st) :: s.(promises)) s.(refresh_log)
    s.(awaiting) s.(next_id).

(** The refresh network call of promise [p] completes with [r]. The
    executor is an async function whose rejections are not observed: when
    [await window.fetch] or [await response.json()] throws, neither
    [resolve] nor [reject] runs and [p] stays pending. *)
Definition refresh_complete (p : nat) (r : net_result) (s : store) : store :=
  if negb (existsb (Nat.eqb p) s.(awaiting)) then s
  else
    let s0 := mkStore s.(lastRefreshed) s.(expired) s.(status) s.(error)
                s.(progress) s.(uploadError) s.(refreshPromise) s.(promises)
                s.(refresh_log) (filter (fun q => negb (Nat.eqb p q)) s.(awaiting))
                s.(next_id) in
    match r with
    | NetFailure => s0
    | NetResponse resp =>
        if resp_status resp =? 200 then
          finish_refresh p (Fulfilled None) (set_expired false s0)
        else
          let s1 := set_expired true s0 in
          match resp_json resp with
          | None => s1
          | Some body =>
              let m := responseErrorMsg (resp_status resp) body in
              finish_refresh p
                (Rejected (RError (mkError (js_String m) (Some (resp_status resp))
                                     (Some body))))
                (set_error m s1)
          end
    end.

(* ------------------------------------------------------------------ *)
(** * Session watcher (lines 51-68) *)

(** Poll period of the [setInterval] in the constructor. *)
Definition WATCH_INTERVAL : Z := 5000.

(** One tick of the interval callback at time [now]. *)
Definition watch_tick (now : Z) (s : store) : store :=
  if getLastRefresh s + REFRESH_TIMEOUT <? now then set_expired true s else s.

(** Ticks at [t0], [t0 + 5000], ..., [n] of them. *)
Fixpoint watch_ticks (t0 : Z) (n : nat) (s : store) : store :=
  match n with
  | O => s
  | S n' => watch_ticks (t0 + WATCH_INTERVAL) n' (watch_tick t0 s)
  end.

(* ------------------------------------------------------------------ *)
(** * Request options: [buildOptions] (lines 10-26) *)

(** Own enumerable entries that [{...v}] copies from a value. *)
Fixpoint index_entries (i : Z) (l : list json) : list (string * json) :=
  match l with
  | [] => []
  | v :: l' => (z_to_string i, v) :: index_entries (i + 1) l'
  end.

Definition spread_entries (v : jsval) : list (string * json) :=
  match v with
  | Some (JObj o) => o
  | Some (JArr l) => index_entries 0 l
  | Some (JStr s) =>
      index_entries 0 (map (fun c => JStr (String c EmptyString)) (list_ascii_of_string s))
  | _ => []
  end.

Definition standard_headers : list (string * json) :=
  [("Content-Type", JStr "application/json"); ("Cache-Control", JStr "no-cache")].

Definition standard_options : list (string * json) :=
  [("headers", JObj standard_headers); ("credentials", JStr "include");
   ("mode", JStr "same-origin")].

Definition buildOptions (options : list (string * json)) : list (string * json) :=
  let options' :=
    if truthy (obj_get options "headers")
    then obj_set options "headers"
           (JObj (obj_spread standard_headers (spread_entries (obj_get options "headers"))))
    else options in
  obj_spread standard_options options'.

(* ------------------------------------------------------------------ *)
(** * fetch (lines 70-116) *)

(** The options object handed to [window.fetch]:
    [const { query, skip401 = false, ...requestOptions } = options] and then
    [buildOptions(requestOptions)]. *)
Definition fetch_transport_options (options : list (string * json))
  : list (string * json) :=
  buildOptions (obj_rest options ["query"; "skip401"]).

(** The condition of line 83 (and 131): [!options.skipRefresh && recordActivity]. *)
Definition awaits_refresh (options : list (string * json)) (recordActivity : bool)
  : bool :=
  negb (truthy (obj_get options "skipRefresh")) && recordActivity.

(** Lines 82-87 at time [now]: [refresh()] is called when the condition
    holds; the result says what is awaited. *)
Definition freshness_gate (now : Z) (options : list (string * json))
  (recordActivity : bool) (s : store) : store * option refresh_ret :=
  if awaits_refresh options recordActivity
  then let '(s', r) := refresh now s in (s', Some r)
  else (s, None).

(** Where the request stands after the gate: its network call is issued,
    it is rejected with the refresh's reason, or it is still waiting. *)
Inductive gate_step :=
| Proceed : gate_step
| Abort : reason -> gate_step
| Waiting : gate_step.

Definition gate_continue (g : option refresh_ret) (s : store) : gate_step :=
  match g with
  | None => Proceed
  | Some RetUndefined => Proceed
  | Some (RetFollows p) =>
      match promise_state s.(promises) p with
      | Pending => Waiting
      | Fulfilled _ => Proceed
      | Rejected r => Abort r
      end
  end.

Definition response_ok (n : Z) : bool := (200 <=? n) && (n <=? 299).

(** The [.then] of [window.fetch] (lines 89-114); [skip401] is the value
    destructured from the options. [resolve(response.json())] rejects the
    call with a SyntaxError when the body is not JSON; in the error branch a
    failing [response.json()] leaves the call unsettled. *)
Definition fetch_on_response (skip401 : jsval) (resp : response) (s : store)
  : store * pstate :=
  let st := resp_status resp in
  let s1 := if truthy skip401 && (st =? 401) then set_status 200 s
            else set_status st s in
  if response_ok st then
    (set_error (JStr EmptyString) s1,
     match resp_json resp with
     | Some v => Fulfilled (Some v)
     | None => Rejected RSyntaxError
     end)
  else if st =? 504 then
    (s1, Rejected (RError (mkError (resp_text resp) None
                             (Some (JObj [("error", JStr (resp_text resp))])))))
  else
    match resp_json resp with
    | Some body =>
        let m := responseErrorMsg st body in
        (set_error m s1,
         Rejected (RError (mkError (js_String m) (Some st) (Some body))))
    | None => (s1, Pending)
    end.

(** A fetch whose gate let it through, answered by [resp]. *)
Definition fetch_answer (options : list (string * json)) (resp : response)
  (s : store) : store * pstate :=
  fetch_on_response (obj_get options "skip401") resp s.

(* ------------------------------------------------------------------ *)
(** * upload (lines 118-178) *)

(** A FormData entry: a string value or the file. *)
Inductive form_value :=
| FormString : string -> form_value
| FormFile : string -> form_value.

(** [const { method = 'POST', query, headers = {}, ...data } = options];
    each entry of [data] is appended as [JSON.stringify(value)], then the
    file. *)
Definition upload_form_fields (options : list (string * json)) (file : string)
  : list (string * form_value) :=
  map (fun kv => (fst kv, FormString (stringify (snd kv))))
    (obj_rest options ["method"; "query"; "headers"])
  ++ [("file", FormFile file)].

(** [xhr.onreadystatechange] (lines 159-170). [JSON.parse] throwing inside
    the handler stops it before [resolve]/[reject]. *)
Definition upload_on_readystate (readyState : Z) (xhr_status : Z)
  (responseText : string) (s : store) : store * pstate :=
  let s1 := set_status xhr_status s in
  if (readyState =? 4) && (xhr_status =? 200) then
    (set_uploadError EmptyString s1,
     match JSON_parse responseText with
     | Some v => Fulfilled (Some v)
     | None => Pending
     end)
  else if (readyState =? 4) && negb (xhr_status =? 200) then
    (set_uploadError responseText s1,
     match JSON_parse responseText with
     | Some v => Rejected (RValue v)
     | None => Pending
     end)
  else (s1, Pending).

(* ------------------------------------------------------------------ *)
(** * Runs of the coordinator *)

(** Several [refresh()] calls in a row, at times [ts], with what each returned. *)
Fixpoint refresh_calls (ts : list Z) (s : store) : store * list refresh_ret :=
  match ts with
  | [] => (s, [])
  | t :: ts' =>
      let '(s1, r) := refresh t s in
      let '(s2, rs) := refresh_calls ts' s1 in
      (s2, r :: rs)
  end.

(** What a caller of [refresh()] observes in state [s]. *)
Definition ret_outcome (s : store) (r : refresh_ret) : pstate :=
  match r with
  | RetUndefined => Fulfilled None
  | RetFollows p => promise_state s.(promises) p
  end.

(** Events that reach the store while the program runs. *)
Inductive event :=
| EvRefresh : Z -> event
| EvTick : Z -> event
| EvComplete : nat -> net_result -> event
| EvGate : Z -> list (string * json) -> bool -> event.

(** What a [refresh()] call or a freshness gate of fetch/upload saw. *)
Inductive observation :=
| ObsRefresh : refresh_ret -> observation
| ObsGate : option refresh_ret -> gate_step -> observation.

Fixpoint run (evs : list event) (s : store) : store * list observation :=
  match evs with
  | [] => (s, [])
  | EvRefresh t :: evs' =>
      let '(s1, r) := refresh t s in
      let '(s2, os) := run evs' s1 in (s2, ObsRefresh r :: os)
  | EvTick t :: evs' => run evs' (watch_tick t s)
  | EvComplete q r :: evs' => run evs' (refresh_complete q r s)
  | EvGate t o ra :: evs' =>
      let '(s1, g) := freshness_gate t o ra s in
      let '(s2, os) := run evs' s1 in (s2, ObsGate g (gate_continue g s1) :: os)
  end.

Example scenario_spec_section8 :
  let s := initial_store (Some 1000) in
  snd (refresh (1000 + 50000) s) = RetUndefined /\
  lastRefreshed (fst (refresh (1000 + 60000) s)) = Some (1000 + 60000) /\
  refresh_log (fst (refresh (1000 + 60000) s)) = [0%nat].
Proof. repeat split; reflexivity. Qed.

(* ------------------------------------------------------------------ *)
(** * Refresh coordinator: deduplication and staleness *)

(** C1: while [refreshPromise] holds [p], any number of further
    [refresh()] calls leave the store as it is (no network call is added to
    [refresh_log]) and each returns a promise following [p], so every caller
    observes the single outcome of [p]. *)
Theorem refresh_dedup :
  forall (s : store) (p : nat) (ts : list Z),
    refreshPromise s = Some p ->
    refresh_calls ts s = (s, repeat (RetFollows p) (List.length ts)).
Proof.
  intros s p ts Hp. induction ts as [| t ts IH]; simpl; [reflexivity |].
  unfold refresh at 1. rewrite Hp. rewrite IH. reflexivity.
Qed.

Lemma refresh_dedup_witness :
  let s := fst (refresh 100000 (initial_store (Some 0))) in
  refreshPromise s = Some 0%nat /\
  refresh_calls [100001; 100002] s = (s, repeat (RetFollows 0) 2).
Proof.
  split; [reflexivity | apply (refresh_dedup _ 0%nat [100001; 100002]); reflexivity].
Defined.

(** C2: with no refresh in flight, a fresh token ([now - lastRefreshedAt <
    ACCESS_TIMEOUT]) makes [refresh()] return at once with the store
    unchanged; a stale one makes it write [lastRefreshedAt = now] and issue
    exactly one network call, while the promise is still pending. *)
Theorem refresh_staleness :
  forall (s : store) (now : Z),
    refreshPromise s = None ->
    (now - getLastRefresh s < ACCESS_TIMEOUT -> refresh now s = (s, RetUndefined)) /\
    (now - getLastRefresh s >= ACCESS_TIMEOUT ->
     exists p s',
       refresh now s = (s', RetFollows p) /\
       refresh_log s' = (refresh_log s ++ [p])%list /\
       lastRefreshed s' = Some now /\
       refreshPromise s' = Some p /\
       promise_state (promises s') p = Pending).
Proof.
  intros s now Hnone. unfold refresh. rewrite Hnone. split.
  - intros Hlt. replace (now <? getLastRefresh s + ACCESS_TIMEOUT) with true
      by (symmetry; apply Z.ltb_lt; lia). reflexivity.
  - intros Hge. replace (now <? getLastRefresh s + ACCESS_TIMEOUT) with false
      by (symmetry; apply Z.ltb_ge; lia).
    eexists; eexists; split; [reflexivity |].
    simpl. rewrite Nat.eqb_refl. repeat split; reflexivity.
Qed.

Lemma refresh_staleness_witness :
  refreshPromise (initial_store (Some 1000)) = None /\
  refresh 51000 (initial_store (Some 1000)) = (initial_store (Some 1000), RetUndefined).
Proof.
  split; [reflexivity |].
  apply (proj1 (refresh_staleness (initial_store (Some 1000)) 51000 eq_refl)).
  vm_compute. reflexivity.
Defined.

(* ------------------------------------------------------------------ *)
(** * A refresh whose transport fails *)

(** The coordinator is stuck on [p]: the handle is set, [p] is pending and
    no refresh network call is left to answer it. *)
Definition stuck_on (p : nat) (s : store) : Prop :=
  refreshPromise s = Some p /\ promise_state (promises s) p = Pending /\
  awaiting s = [].

Definition stuck_observation (p : nat) (o : observation) : Prop :=
  match o with
  | ObsRefresh r => r = RetFollows p
  | ObsGate None st => st = Proceed
  | ObsGate (Some r) st => r = RetFollows p /\ st = Waiting
  end.

Lemma watch_tick_fields :
  forall t s, refreshPromise (watch_tick t s) = refreshPromise s /\
              promises (watch_tick t s) = promises s /\
              awaiting (watch_tick t s) = awaiting s /\
              getLastRefresh (watch_tick t s) = getLastRefresh s.
Proof.
  intros t s. unfold watch_tick. destruct (_ <? _); repeat split; reflexivity.
Qed.

Lemma run_stuck :
  forall evs s p, stuck_on p s ->
    stuck_on p (fst (run evs s)) /\ Forall (stuck_observation p) (snd (run evs s)).
Proof.
  induction evs as [| ev evs IH]; intros s p Hs; [split; [exact Hs | constructor] |].
  destruct Hs as (Hp & Hpend & Haw).
  assert (Hr : forall t, refresh t s = (s, RetFollows p))
    by (intros t; unfold refresh; rewrite Hp; reflexivity).
  destruct (IH s p (conj Hp (conj Hpend Haw))) as [H1 H2].
  destruct ev as [t | t | q r | t o ra]; simpl.
  - rewrite Hr. destruct (run evs s) as [s2 os]. simpl in *.
    split; [exact H1 | constructor; [reflexivity | exact H2]].
  - apply IH. destruct (watch_tick_fields t s) as (E1 & E2 & E3 & _).
    unfold stuck_on. rewrite E1, E2, E3. auto.
  - replace (refresh_complete q r s) with s
      by (unfold refresh_complete; rewrite Haw; reflexivity).
    exact (conj H1 H2).
  - unfold freshness_gate. destruct (awaits_refresh o ra).
    + rewrite Hr. simpl. rewrite Hpend.
      destruct (run evs s) as [s2 os]. simpl in *.
      split; [exact H1 | constructor; [split; reflexivity | exact H2]].
    + destruct (run evs s) as [s2 os]. simpl in *.
      split; [exact H1 | constructor; [reflexivity | exact H2]].
Qed.

(** C8: when the fetch of the refresh endpoint itself rejects, the refresh
    promise never settles and [refreshPromise] is never cleared: after any
    later events (refresh calls, watcher ticks, answers to network calls,
    freshness gates of fetch/upload) the handle still holds [p], [p] is still
    pending, every [refresh()] call returns a promise following [p], and every
    gate that awaits the coordinator is left waiting on it. *)
Theorem refresh_transport_failure_never_settles :
  forall (s : store) (now : Z) (evs : list event),
    refreshPromise s = None -> awaiting s = [] ->
    getLastRefresh s + ACCESS_TIMEOUT <= now ->
    exists p,
      snd (refresh now s) = RetFollows p /\
      stuck_on p (fst (run evs (refresh_complete p NetFailure (fst (refresh now s))))) /\
      Forall (stuck_observation p)
        (snd (run evs (refresh_complete p NetFailure (fst (refresh now s))))).
Proof.
  intros s now evs Hnone Haw Hstale.
  exists (next_id s).
  unfold refresh. rewrite Hnone.
  replace (now <? getLastRefresh s + ACCESS_TIMEOUT) with false
    by (symmetry; apply Z.ltb_ge; lia).
  simpl. split; [reflexivity |].
  apply run_stuck. unfold refresh_complete. simpl. rewrite Haw. simpl.
  rewrite Nat.eqb_refl. simpl. unfold stuck_on. simpl.
  rewrite Nat.eqb_refl. repeat split.
Qed.

Lemma refresh_transport_failure_never_settles_witness :
  exists p,
    snd (refresh 100000 (initial_store (Some 0))) = RetFollows p /\
    stuck_on p (fst (run [EvRefresh 100001; EvTick 100002;
                          EvGate 100003 [] true; EvComplete 0 (NetResponse (mkResponse 200 "{}"))]
                  (refresh_complete p NetFailure (fst (refresh 100000 (initial_store (Some 0))))))) /\
    Forall (stuck_observation p)
      (snd (run [EvRefresh 100001; EvTick 100002;
                 EvGate 100003 [] true; EvComplete 0 (NetResponse (mkResponse 200 "{}"))]
              (refresh_complete p NetFailure (fst (refresh 100000 (initial_store (Some 0))))))).
Proof.
  apply refresh_transport_failure_never_settles; vm_compute; try reflexivity; discriminate.
Defined.

(* ------------------------------------------------------------------ *)
(** * Absent clock *)

(** C9: with the key [auth.lastRefreshed] absent, [getLastRefresh()] is 0;
    at any real clock reading (past [REFRESH_TIMEOUT] ms after the epoch) a
    [refresh()] with nothing in flight issues a network call, and a watcher
    tick sets the expiry flag. *)
Theorem absent_clock_is_stale :
  forall (s : store) (now : Z),
    lastRefreshed s = None -> refreshPromise s = None -> REFRESH_TIMEOUT < now ->
    getLastRefresh s = 0 /\
    (exists p, snd (refresh now s) = RetFollows p /\
               refresh_log (fst (refresh now s)) = (refresh_log s ++ [p])%list) /\
    expired (watch_tick now s) = true.
Proof.
  intros s now Habs Hnone Hnow.
  assert (H0 : getLastRefresh s = 0) by (unfold getLastRefresh; rewrite Habs; reflexivity).
  split; [exact H0 | split].
  - exists (next_id s). unfold refresh. rewrite Hnone, H0.
    replace (now <? 0 + ACCESS_TIMEOUT) with false
      by (symmetry; apply Z.ltb_ge; unfold REFRESH_TIMEOUT, ACCESS_TIMEOUT in *; lia).
    split; reflexivity.
  - unfold watch_tick. rewrite H0.
    replace (0 + REFRESH_TIMEOUT <? now) with true by (symmetry; apply Z.ltb_lt; lia).
    reflexivity.
Qed.

Lemma absent_clock_is_stale_witness :
  getLastRefresh (initial_store None) = 0 /\
  (exists p, snd (refresh 1700000000000 (initial_store None)) = RetFollows p /\
             refresh_log (fst (refresh 1700000000000 (initial_store None))) =
             (refresh_log (initial_store None) ++ [p])%list) /\
  expired (watch_tick 1700000000000 (initial_store None)) = true.
Proof.
  apply absent_clock_is_stale; [reflexivity | reflexivity | vm_compute; reflexivity].
Defined.

(* ------------------------------------------------------------------ *)
(** * Session watcher *)

Lemma watch_tick_expired :
  forall t s, expired (watch_tick t s) =
              expired s || (getLastRefresh s + REFRESH_TIMEOUT <? t).
Proof.
  intros t s. unfold watch_tick.
  destruct (getLastRefresh s + REFRESH_TIMEOUT <? t); simpl;
    [rewrite orb_true_r | rewrite orb_false_r]; reflexivity.
Qed.

(** C4, as stated, at the boundary [now - lastRefreshedAt = REFRESH_TIMEOUT]:
    the tick leaves the flag false. *)
Lemma session_watch_boundary_counterexample :
  let s := initial_store (Some 0) in
  REFRESH_TIMEOUT - getLastRefresh s >= REFRESH_TIMEOUT /\
  expired s = false /\
  expired (watch_tick REFRESH_TIMEOUT s) = false.
Proof. vm_compute. repeat split; discriminate. Qed.

(** C4 (amended): a tick sets the expiry flag exactly when
    [lastRefreshedAt + REFRESH_TIMEOUT < now], i.e. [now - lastRefreshedAt]
    strictly exceeds the ceiling, and otherwise leaves it as it was. With
    the clock unchanged, after ticks at [t0], [t0 + 5000], ... the flag is
    true exactly when it already was or the last tick is past the ceiling;
    so a crossing is seen by the first tick after it, less than one interval
    later, and no tick sets the flag while [now - lastRefreshedAt] is at most
    the ceiling. *)
Theorem session_watch_tick :
  forall (s : store) (t0 : Z) (n : nat),
    expired (watch_tick t0 s) =
      expired s || (REFRESH_TIMEOUT <? t0 - getLastRefresh s) /\
    expired (watch_ticks t0 n s) =
      expired s ||
      match n with
      | O => false
      | S m => REFRESH_TIMEOUT <? t0 + WATCH_INTERVAL * Z.of_nat m - getLastRefresh s
      end.
Proof.
  intros s t0 n. split.
  - rewrite watch_tick_expired. f_equal.
    destruct (getLastRefresh s + REFRESH_TIMEOUT <? t0) eqn:E1;
    destruct (REFRESH_TIMEOUT <? t0 - getLastRefresh s) eqn:E2; try reflexivity;
    rewrite ?Z.ltb_lt, ?Z.ltb_ge in *; lia.
  - revert t0 s. induction n as [| m IH]; intros t0 s; cbn [watch_ticks].
    + rewrite orb_false_r. reflexivity.
    + rewrite IH. rewrite watch_tick_expired.
      destruct (watch_tick_fields t0 s) as (_ & _ & _ & E). rewrite E.
      rewrite <- orb_assoc. f_equal. unfold WATCH_INTERVAL.
      destruct m as [| k].
      * change (Z.of_nat 0) with 0. rewrite orb_false_r.
        destruct (getLastRefresh s + REFRESH_TIMEOUT <? t0) eqn:E1;
        destruct (REFRESH_TIMEOUT <? t0 + 5000 * 0 - getLastRefresh s) eqn:E2;
        try reflexivity; rewrite ?Z.ltb_lt, ?Z.ltb_ge in *; lia.
      * rewrite Nat2Z.inj_succ.
        destruct (getLastRefresh s + REFRESH_TIMEOUT <? t0) eqn:E1;
        destruct (REFRESH_TIMEOUT <? t0 + 5000 + 5000 * Z.of_nat k - getLastRefresh s) eqn:E2;
        destruct (REFRESH_TIMEOUT <? t0 + 5000 * Z.succ (Z.of_nat k) - getLastRefresh s) eqn:E3;
        try reflexivity; rewrite ?Z.ltb_lt, ?Z.ltb_ge in *; lia.
Qed.

(* ------------------------------------------------------------------ *)
(** * Freshness gate of fetch and upload *)

Definition stale_store : store := initial_store (Some 0).

(** C5, as stated, with [skipRefresh] absent and [recordActivity = false]
    (so not "skipRefresh set and recordActivity true"): the gate does not
    call [refresh()] although the token is stale. *)
Lemma fetch_gate_counterexample :
  awaits_refresh [] false = false /\
  freshness_gate 1700000000000 [] false stale_store = (stale_store, None) /\
  refresh_log (fst (refresh 1700000000000 stale_store)) = [0%nat].
Proof. repeat split; reflexivity. Qed.

(** C5 (amended): the gate calls and awaits [refresh()] exactly when
    [skipRefresh] is not truthy and [recordActivity] is true; otherwise the
    store is untouched, so with [skipRefresh] set no refresh call is made
    whatever the clock says. When the awaited refresh is rejected, the request
    is rejected with the refresh's reason and its own call is not issued. *)
Theorem fetch_gate :
  forall (now : Z) (options : list (string * json)) (recordActivity : bool)
         (s : store),
    (awaits_refresh options recordActivity = false ->
     freshness_gate now options recordActivity s = (s, None)) /\
    (awaits_refresh options recordActivity = true ->
     freshness_gate now options recordActivity s =
       (fst (refresh now s), Some (snd (refresh now s)))) /\
    (truthy (obj_get options "skipRefresh") = true ->
     freshness_gate now options recordActivity s = (s, None)) /\
    (forall (s' : store) (p : nat) (r : reason),
       promise_state (promises s') p = Rejected r ->
       gate_continue (Some (RetFollows p)) s' = Abort r).
Proof.
  intros now options ra s. unfold freshness_gate. repeat split.
  - intros H. rewrite H. reflexivity.
  - intros H. rewrite H. destruct (refresh now s). reflexivity.
  - intros H. unfold awaits_refresh. rewrite H. reflexivity.
  - intros s' p r H. simpl. rewrite H. reflexivity.
Qed.

Lemma fetch_gate_witness :
  freshness_gate 1700000000000 [("skipRefresh", JBool true)] true stale_store =
    (stale_store, None).
Proof.
  apply (proj1 (proj2 (proj2 (fetch_gate 1700000000000 [("skipRefresh", JBool true)]
                                 true stale_store)))).
  reflexivity.
Defined.

(* ------------------------------------------------------------------ *)
(** * Response normalisation of fetch *)

(** C3, as stated: a 401 with [skip401] sets the status to 200 but the
    call is rejected, not resolved. *)
Lemma skip401_counterexample :
  status (fst (fetch_answer [("skip401", JBool true)] (mkResponse 401 "{}") stale_store))
    = 200 /\
  snd (fetch_answer [("skip401", JBool true)] (mkResponse 401 "{}") stale_store)
    = Rejected (RError (mkError "401 - {}" (Some 401) (Some (JObj [])))).
Proof. split; reflexivity. Qed.

(** C3 (amended): on a 401 with [skip401] truthy the observable status is
    set to 200, yet the response goes through the error branch: with a JSON
    body the call is rejected with an error carrying status 401, the body
    and the derived message (also written to the error field); with a body
    that is not JSON it never settles. *)
Theorem fetch_skip401 :
  forall (options : list (string * json)) (resp : response) (s : store),
    truthy (obj_get options "skip401") = true -> resp_status resp = 401 ->
    status (fst (fetch_answer options resp s)) = 200 /\
    error (fst (fetch_answer options resp s)) =
      match resp_json resp with
      | Some body => responseErrorMsg 401 body
      | None => error s
      end /\
    snd (fetch_answer options resp s) =
      match resp_json resp with
      | Some body =>
          Rejected (RError (mkError (js_String (responseErrorMsg 401 body))
                              (Some 401) (Some body)))
      | None => Pending
      end.
Proof.
  intros options resp s Hskip H401.
  unfold fetch_answer, fetch_on_response. rewrite Hskip, H401. simpl.
  destruct (resp_json resp); split; [reflexivity | split; reflexivity | reflexivity | split; reflexivity].
Qed.

Lemma fetch_skip401_witness :
  status (fst (fetch_answer [("skip401", JBool true)] (mkResponse 401 "{}") stale_store))
    = 200 /\
  error (fst (fetch_answer [("skip401", JBool true)] (mkResponse 401 "{}") stale_store)) =
    match resp_json (mkResponse 401 "{}") with
    | Some body => responseErrorMsg 401 body
    | None => error stale_store
    end /\
  snd (fetch_answer [("skip401", JBool true)] (mkResponse 401 "{}") stale_store) =
    match resp_json (mkResponse 401 "{}") with
    | Some body =>
        Rejected (RError (mkError (js_String (responseErrorMsg 401 body))
                            (Some 401) (Some body)))
    | None => Pending
    end.
Proof. apply fetch_skip401; reflexivity. Defined.

(** C6, as stated: [error_description] is present (the empty string) but
    the message is taken from [error]. *)
Lemma error_message_counterexample :
  js_get (Some (JObj [("error_description", JStr EmptyString); ("error", JStr "Y")]))
    "error_description" = Some (JStr EmptyString) /\
  responseErrorMsg 500 (JObj [("error_description", JStr EmptyString); ("error", JStr "Y")])
    = JStr "Y" /\
  JStr "Y" <> JStr EmptyString.
Proof. split; [reflexivity | split; [reflexivity | discriminate]]. Qed.

(** C6 (amended): for a non-2xx, non-504 response whose body parses as
    JSON, the message is [body.error_description] when that value is truthy,
    else [body.error] when truthy, else ["<status> - " ++ JSON.stringify(body)];
    so [{error_description: "X"}] gives ["X"], [{error: "Y"}] gives ["Y"] and
    [{}] with status 500 gives ["500 - {}"]. The call is rejected with an
    error carrying the status, the parsed body and that message, and the
    message is stored in the error field. *)
Theorem fetch_error_message :
  forall (options : list (string * json)) (resp : response) (s : store) (body : json),
    response_ok (resp_status resp) = false -> resp_status resp <> 504 ->
    resp_json resp = Some body ->
    let m := responseErrorMsg (resp_status resp) body in
    (truthy (js_get (Some body) "error_description") = true ->
       Some m = js_get (Some body) "error_description") /\
    (truthy (js_get (Some body) "error_description") = false ->
     truthy (js_get (Some body) "error") = true ->
       Some m = js_get (Some body) "error") /\
    (truthy (js_get (Some body) "error_description") = false ->
     truthy (js_get (Some body) "error") = false ->
       m = JStr (z_to_string (resp_status resp) ++ " - " ++ stringify body)) /\
    error (fst (fetch_answer options resp s)) = m /\
    snd (fetch_answer options resp s) =
      Rejected (RError (mkError (js_String m) (Some (resp_status resp)) (Some body))) /\
    responseErrorMsg 400 (JObj [("error_description", JStr "X")]) = JStr "X" /\
    responseErrorMsg 400 (JObj [("error", JStr "Y")]) = JStr "Y" /\
    responseErrorMsg 500 (JObj []) = JStr ("500" ++ " - {}").
Proof.
  intros options resp s body Hok H504 Hbody m.
  repeat split.
  - intros Hd. unfold m, responseErrorMsg. rewrite Hd.
    destruct (js_get (Some body) "error_description") eqn:E; [| discriminate].
    destruct body; try discriminate; reflexivity.
  - intros Hd He. unfold m, responseErrorMsg. rewrite Hd, He.
    destruct (js_get (Some body) "error") eqn:E; [| discriminate].
    rewrite andb_false_r. destruct body; try discriminate; reflexivity.
  - intros Hd He. unfold m, responseErrorMsg. rewrite Hd, He.
    rewrite !andb_false_r. reflexivity.
  - unfold fetch_answer, fetch_on_response. rewrite Hok, Hbody.
    replace (resp_status resp =? 504) with false by (symmetry; apply Z.eqb_neq; exact H504).
    destruct (_ && _); reflexivity.
  - unfold fetch_answer, fetch_on_response. rewrite Hok, Hbody.
    replace (resp_status resp =? 504) with false by (symmetry; apply Z.eqb_neq; exact H504).
    destruct (_ && _); reflexivity.
Qed.

Lemma fetch_error_message_witness :
  let resp := mkResponse 500 "{}" in
  error (fst (fetch_answer [] resp stale_store)) = JStr "500 - {}" /\
  snd (fetch_answer [] resp stale_store) =
    Rejected (RError (mkError "500 - {}" (Some 500) (Some (JObj [])))).
Proof.
  destruct (fetch_error_message [] (mkResponse 500 "{}") stale_store (JObj [])
              eq_refl ltac:(discriminate) eq_refl)
    as (_ & _ & _ & H1 & H2 & _).
  split; [exact H1 | exact H2].
Defined.

(* ------------------------------------------------------------------ *)
(** * Upload completion *)

(** C7, as stated: a 502 whose text is not JSON sets the upload error, but
    the call is not rejected with the raw text: [JSON.parse] throws inside
    the handler and the promise never settles. *)
Lemma upload_unparsable_counterexample :
  upload_on_readystate 4 502 "<html>Bad Gateway</html>" stale_store =
    (set_uploadError "<html>Bad Gateway</html>" (set_status 502 stale_store), Pending).
Proof. reflexivity. Qed.

(** C7 (amended): at completion ([readyState] 4), status 200 clears the
    upload error and resolves with [JSON.parse] of the text; any other status
    sets the upload error to the raw text and rejects with the parsed body.
    When the text is not JSON, neither happens: the call stays unsettled. *)
Theorem upload_completion :
  forall (xhr_status : Z) (text : string) (s : store),
    upload_on_readystate 4 200 text s =
      (set_uploadError EmptyString (set_status 200 s),
       match JSON_parse text with Some v => Fulfilled (Some v) | None => Pending end) /\
    (xhr_status <> 200 ->
     upload_on_readystate 4 xhr_status text s =
       (set_uploadError text (set_status xhr_status s),
        match JSON_parse text with Some v => Rejected (RValue v) | None => Pending end)).
Proof.
  intros st text s. split; [reflexivity |].
  intros Hne. unfold upload_on_readystate.
  replace (st =? 200) with false by (symmetry; apply Z.eqb_neq; exact Hne).
  reflexivity.
Qed.

Lemma upload_completion_witness :
  upload_on_readystate 4 400 "{}" stale_store =
    (set_uploadError "{}" (set_status 400 stale_store), Rejected (RValue (JObj []))).
Proof.
  apply (proj2 (upload_completion 400 "{}" stale_store)). discriminate.
Defined.

(* ------------------------------------------------------------------ *)
(** * Control flags in the outgoing request *)

Lemma obj_get_set :
  forall o k v k', obj_get (obj_set o k v) k' =
                   if String.eqb k' k then Some v else obj_get o k'.
Proof.
  induction o as [| [k1 v1] o IH]; intros k v k'; simpl.
  - destruct (String.eqb k' k); reflexivity.
  - destruct (String.eqb k k1) eqn:E1; simpl.
    + apply String.eqb_eq in E1. subst k1.
      destruct (String.eqb k' k); reflexivity.
    + rewrite IH. destruct (String.eqb k' k1) eqn:E2; [| reflexivity].
      apply String.eqb_eq in E2. subst k1.
      destruct (String.eqb k' k) eqn:E3; [| reflexivity].
      apply String.eqb_eq in E3. subst k. rewrite String.eqb_refl in E1. discriminate.
Qed.

Lemma obj_get_not_key :
  forall o k, ~ In k (map fst o) -> obj_get o k = None.
Proof.
  induction o as [| [k1 v1] o IH]; intros k Hn; simpl in *; [reflexivity |].
  destruct (String.eqb k k1) eqn:E.
  - apply String.eqb_eq in E. subst. exfalso. apply Hn. left. reflexivity.
  - apply IH. intros H. apply Hn. right. exact H.
Qed.

Lemma obj_set_keys :
  forall o k v x, In x (map fst (obj_set o k v)) -> In x (map fst o) \/ x = k.
Proof.
  induction o as [| [k1 v1] o IH]; intros k v x H; simpl in *.
  - destruct H as [H | []]. right. symmetry. exact H.
  - destruct (String.eqb k k1); simpl in H.
    + left. exact H.
    + destruct H as [H | H]; [left; left; exact H |].
      destruct (IH k v x H) as [H' | H']; [left; right; exact H' | right; exact H'].
Qed.

Lemma obj_set_nodup :
  forall o k v, NoDup (map fst o) -> NoDup (map fst (obj_set o k v)).
Proof.
  induction o as [| [k1 v1] o IH]; intros k v Hnd; simpl in *.
  - constructor; [intros [] | constructor].
  - inversion Hnd as [| ? ? Hnotin Hnd']; subst.
    destruct (String.eqb k k1) eqn:E; simpl.
    + constructor; assumption.
    + constructor; [| apply IH; exact Hnd'].
      intros Hin. destruct (obj_set_keys o k v k1 Hin) as [H | H].
      * exact (Hnotin H).
      * subst. rewrite String.eqb_refl in E. discriminate.
Qed.

Lemma obj_get_spread :
  forall b a k, NoDup (map fst b) ->
    obj_get (obj_spread a b) k =
      match obj_get b k with Some v => Some v | None => obj_get a k end.
Proof.
  unfold obj_spread.
  induction b as [| [k1 v1] b IH]; intros a k Hnd; simpl; [reflexivity |].
  inversion Hnd as [| ? ? Hnotin Hnd']; subst.
  rewrite IH by exact Hnd'. rewrite obj_get_set.
  destruct (String.eqb k k1) eqn:E.
  - apply String.eqb_eq in E. subst k1.
    rewrite (obj_get_not_key b k Hnotin). reflexivity.
  - destruct (obj_get b k); reflexivity.
Qed.

Lemma obj_get_rest :
  forall o ks k, obj_get (obj_rest o ks) k =
                 if existsb (String.eqb k) ks then None else obj_get o k.
Proof.
  unfold obj_rest.
  induction o as [| [k1 v1] o IH]; intros ks k; simpl.
  - destruct (existsb _ ks); reflexivity.
  - destruct (existsb (String.eqb k1) ks) eqn:E1; simpl.
    + rewrite IH. destruct (existsb (String.eqb k) ks) eqn:E2; [reflexivity |].
      destruct (String.eqb k k1) eqn:E3; [| reflexivity].
      apply String.eqb_eq in E3. subst. rewrite E1 in E2. discriminate.
    + rewrite IH. destruct (String.eqb k k1) eqn:E3.
      * apply String.eqb_eq in E3. subst. rewrite E1. reflexivity.
      * reflexivity.
Qed.

Lemma obj_rest_nodup :
  forall o ks, NoDup (map fst o) -> NoDup (map fst (obj_rest o ks)).
Proof.
  unfold obj_rest.
  induction o as [| [k1 v1] o IH]; intros ks Hnd; simpl; [constructor |].
  inversion Hnd as [| ? ? Hnotin Hnd']; subst.
  destruct (negb _); simpl; [| apply IH; exact Hnd'].
  constructor; [| apply IH; exact Hnd'].
  intros Hin. apply Hnotin. apply in_map_iff in Hin.
  destruct Hin as ([x y] & Hx & Hin). simpl in Hx. subst.
  apply filter_In in Hin. apply in_map_iff. exists (k1, y). split; [reflexivity | apply Hin].
Qed.

(** [buildOptions] changes no key other than [headers], [credentials] and
    [mode]. *)
Lemma buildOptions_get :
  forall o k, NoDup (map fst o) ->
    k <> "headers" -> k <> "credentials" -> k <> "mode" ->
    obj_get (buildOptions o) k = obj_get o k.
Proof.
  intros o k Hnd Hh Hc Hm. unfold buildOptions.
  destruct (truthy (obj_get o "headers")).
  - rewrite obj_get_spread by (apply obj_set_nodup; exact Hnd).
    rewrite obj_get_set.
    replace (String.eqb k "headers") with false by (symmetry; apply String.eqb_neq; exact Hh).
    destruct (obj_get o k); [reflexivity |].
    simpl. apply String.eqb_neq in Hh, Hc, Hm. rewrite Hh, Hc, Hm. reflexivity.
  - rewrite obj_get_spread by exact Hnd.
    destruct (obj_get o k); [reflexivity |].
    simpl. apply String.eqb_neq in Hh, Hc, Hm. rewrite Hh, Hc, Hm. reflexivity.
Qed.

(** C10: the control flags are not all stripped. The options given to
    [window.fetch] drop [query] and [skip401] but keep [skipRefresh] with its
    value; upload drops neither flag, and each of them present in the
    options becomes a form field holding its JSON.stringify'd value. *)
Theorem control_flags_forwarded :
  forall (options : list (string * json)) (file : string),
    NoDup (map fst options) ->
    obj_get (fetch_transport_options options) "skipRefresh" =
      obj_get options "skipRefresh" /\
    obj_get (fetch_transport_options options) "query" = None /\
    obj_get (fetch_transport_options options) "skip401" = None /\
    (forall (k : string) (v : json),
       In (k, v) options -> k = "skipRefresh" \/ k = "skip401" ->
       In (k, FormString (stringify v)) (upload_form_fields options file)).
Proof.
  intros options file Hnd.
  assert (Hnd' : NoDup (map fst (obj_rest options ["query"; "skip401"])))
    by (apply obj_rest_nodup; exact Hnd).
  unfold fetch_transport_options.
  repeat split.
  - rewrite buildOptions_get by (exact Hnd' || discriminate).
    rewrite obj_get_rest. reflexivity.
  - rewrite buildOptions_get by (exact Hnd' || discriminate).
    rewrite obj_get_rest. reflexivity.
  - rewrite buildOptions_get by (exact Hnd' || discriminate).
    rewrite obj_get_rest. reflexivity.
  - intros k v Hin Hk. unfold upload_form_fields. apply in_or_app. left.
    apply (in_map (fun kv => (fst kv, FormString (stringify (snd kv)))) _ (k, v)).
    unfold obj_rest. apply filter_In. split; [exact Hin |].
    destruct Hk as [Hk | Hk]; subst k; reflexivity.
Qed.

Lemma control_flags_forwarded_witness :
  let o := [("method", JStr "POST"); ("skipRefresh", JBool true); ("skip401", JBool true)] in
  obj_get (fetch_transport_options o) "skipRefresh" = Some (JBool true) /\
  obj_get (fetch_transport_options o) "skip401" = None /\
  In ("skip401", FormString "true") (upload_form_fields o "file.bin").
Proof.
  intros o.
  destruct (control_flags_forwarded o "file.bin") as (H1 & _ & H3 & H4).
  - repeat constructor; simpl; intuition discriminate.
  - split; [exact H1 | split; [exact H3 |]].
    apply (H4 "skip401" (JBool true)); [simpl; auto | right; reflexivity].
Defined.

(* ================================================================== *)
(** * Further behaviour of the store and its callers *)

(** The body of the [autorun] in the AuthStore constructor
    (src/AuthStore.js, lines 30-41), evaluated on the RESTStore fields. *)
Inductive auth_reaction :=
| ReactLogout : auth_reaction
| ReactAuthenticate : auth_reaction
| ReactNone : auth_reaction.

Definition auth_autorun (isLoggedIn : bool) (s : store) : auth_reaction :=
  if isLoggedIn && expired s then ReactLogout
  else if status s =? 401 then ReactAuthenticate
  else ReactNone.

(** MobX re-runs the autorun only when an observable read by its last run
    has changed value. That run, on [s], read [isLoggedIn], then
    [restStore.expired] only when [isLoggedIn] holds, then
    [restStore.status] only when it did not call [logout()]. *)
Definition autorun_deps_changed (isLoggedIn : bool) (s s' : store) : bool :=
  (isLoggedIn && negb (Bool.eqb (expired s) (expired s'))) ||
  (negb (isLoggedIn && expired s) && negb (status s =? status s')).

(** What the autorun does when the RESTStore goes from [s] to [s'] with
    [isLoggedIn] unchanged: nothing, unless it re-runs. *)
Definition auth_rerun (isLoggedIn : bool) (s s' : store) : auth_reaction :=
  if autorun_deps_changed isLoggedIn s s' then auth_autorun isLoggedIn s'
  else ReactNone.

(** [buildOptions] keeps the caller's headers and fills in the default ones
    they do not name; [credentials] and [mode] default to [include] and
    [same-origin]. Without headers the defaults are used; a falsy [headers]
    value such as [null] replaces them. *)
Theorem buildOptions_merge :
  forall (o : list (string * json)),
    NoDup (map fst o) ->
    obj_get (buildOptions o) "credentials" =
      match obj_get o "credentials" with Some v => Some v | None => Some (JStr "include") end /\
    obj_get (buildOptions o) "mode" =
      match obj_get o "mode" with Some v => Some v | None => Some (JStr "same-origin") end /\
    (obj_get o "headers" = None ->
       obj_get (buildOptions o) "headers" = Some (JObj standard_headers)) /\
    (forall h, obj_get o "headers" = Some h -> truthy (Some h) = false ->
       obj_get (buildOptions o) "headers" = Some h) /\
    (forall h, obj_get o "headers" = Some (JObj h) -> NoDup (map fst h) ->
       exists hh, obj_get (buildOptions o) "headers" = Some (JObj hh) /\
         forall k, obj_get hh k =
           match obj_get h k with Some v => Some v | None => obj_get standard_headers k end).
Proof.
  intros o Hnd. unfold buildOptions.
  repeat split.
  - destruct (truthy (obj_get o "headers")).
    + rewrite obj_get_spread by (apply obj_set_nodup; exact Hnd).
      rewrite obj_get_set. reflexivity.
    + rewrite obj_get_spread by exact Hnd. reflexivity.
  - destruct (truthy (obj_get o "headers")).
    + rewrite obj_get_spread by (apply obj_set_nodup; exact Hnd).
      rewrite obj_get_set. reflexivity.
    + rewrite obj_get_spread by exact Hnd. reflexivity.
  - intros H. rewrite H. simpl. rewrite obj_get_spread by exact Hnd.
    rewrite H. reflexivity.
  - intros h H Hf. rewrite H, Hf. rewrite obj_get_spread by exact Hnd.
    rewrite H. reflexivity.
  - intros h H Hh. rewrite H. simpl.
    rewrite obj_get_spread by (apply obj_set_nodup; exact Hnd).
    rewrite obj_get_set. simpl.
    eexists. split; [reflexivity |].
    intros k. rewrite obj_get_spread by exact Hh. reflexivity.
Qed.

Lemma buildOptions_merge_witness :
  obj_get (buildOptions [("headers", JNum 0); ("mode", JStr "cors")]) "headers"
    = Some (JNum 0).
Proof.
  apply (proj1 (proj2 (proj2 (proj2
    (buildOptions_merge [("headers", JNum 0); ("mode", JStr "cors")]
       ltac:(repeat constructor; simpl; intuition discriminate))))) (JNum 0));
  reflexivity.
Defined.

(** A 2xx response sets the status field to its status and clears the error
    field; the call resolves with the parsed body, or is rejected with a
    SyntaxError when the body is not JSON. [skip401] plays no part. *)
Theorem fetch_success :
  forall (options : list (string * json)) (resp : response) (s : store),
    response_ok (resp_status resp) = true ->
    fetch_answer options resp s =
      (set_error (JStr EmptyString) (set_status (resp_status resp) s),
       match resp_json resp with
       | Some v => Fulfilled (Some v)
       | None => Rejected RSyntaxError
       end).
Proof.
  intros options resp s Hok. unfold fetch_answer, fetch_on_response.
  rewrite Hok.
  replace (resp_status resp =? 401) with false.
  - rewrite andb_false_r. reflexivity.
  - unfold response_ok in Hok. apply andb_true_iff in Hok.
    destruct Hok as [H1 H2]. apply Z.leb_le in H1, H2.
    symmetry. apply Z.eqb_neq. lia.
Qed.

Lemma fetch_success_witness :
  fetch_answer [] (mkResponse 201 "[1]") stale_store =
    (set_error (JStr EmptyString) (set_status 201 stale_store), Fulfilled (Some (JArr [JNum 1]))).
Proof. apply fetch_success. reflexivity. Defined.

(** A 504 response is rejected with the raw body text as message and
    [{error: text}] as body, whatever the text is (it is never parsed); the
    status field becomes 504 and the error field is left as it was. *)
Theorem fetch_gateway_timeout :
  forall (options : list (string * json)) (resp : response) (s : store),
    resp_status resp = 504 ->
    fetch_answer options resp s =
      (set_status 504 s,
       Rejected (RError (mkError (resp_text resp) None
                           (Some (JObj [("error", JStr (resp_text resp))]))))).
Proof.
  intros options resp s H. unfold fetch_answer, fetch_on_response. rewrite H.
  simpl. rewrite andb_false_r. reflexivity.
Qed.

Lemma fetch_gateway_timeout_witness :
  fetch_answer [] (mkResponse 504 "upstream timed out") stale_store =
    (set_status 504 stale_store,
     Rejected (RError (mkError "upstream timed out" None
                         (Some (JObj [("error", JStr "upstream timed out")]))))).
Proof. apply fetch_gateway_timeout. reflexivity. Defined.

(** A 401 answered to a fetch with [skip401] never makes the AuthStore
    autorun re-authenticate. The same 401 without [skip401] makes it call
    [authenticate()] exactly when the status was not already 401 and the
    user is not logged in with the session expired; otherwise the autorun
    does not re-run. *)
Theorem skip401_suppresses_reauthentication :
  forall (options : list (string * json)) (resp : response) (s : store)
         (isLoggedIn : bool),
    resp_status resp = 401 ->
    (truthy (obj_get options "skip401") = true ->
       auth_rerun isLoggedIn s (fst (fetch_answer options resp s)) <> ReactAuthenticate) /\
    (truthy (obj_get options "skip401") = false ->
       auth_rerun isLoggedIn s (fst (fetch_answer options resp s)) =
         if isLoggedIn && expired s then ReactNone
         else if status s =? 401 then ReactNone
         else ReactAuthenticate).
Proof.
  intros options resp s li H401. unfold fetch_answer, fetch_on_response.
  rewrite H401. simpl. split.
  - intros Hs. rewrite Hs. simpl.
    unfold auth_rerun, autorun_deps_changed, auth_autorun.
    destruct (resp_json resp); simpl; rewrite Bool.eqb_reflx;
      destruct li, (expired s), (status s =? 200); simpl; discriminate.
  - intros Hs. rewrite Hs. simpl.
    unfold auth_rerun, autorun_deps_changed, auth_autorun.
    destruct (resp_json resp); simpl; rewrite Bool.eqb_reflx;
      destruct li, (expired s), (status s =? 401); reflexivity.
Qed.

Lemma skip401_suppresses_reauthentication_witness :
  auth_rerun false stale_store (fst (fetch_answer [] (mkResponse 401 "{}") stale_store))
    = ReactAuthenticate.
Proof.
  apply (proj2 (skip401_suppresses_reauthentication [] (mkResponse 401 "{}")
                  stale_store false eq_refl)).
  reflexivity.
Defined.

(** The store right after a stale [refresh()] at [now] with nothing in flight. *)
Lemma refresh_stale_result :
  forall s now,
    refreshPromise s = None -> getLastRefresh s + ACCESS_TIMEOUT <= now ->
    refresh now s =
      (mkStore (Some now) (expired s) (status s) (error s) (progress s) (uploadError s)
         (Some (next_id s)) ((next_id s, Pending) :: promises s)
         (refresh_log s ++ [next_id s])%list (awaiting s ++ [next_id s])%list
         (S (next_id s)),
       RetFollows (next_id s)).
Proof.
  intros s now Hn Hst. unfold refresh. rewrite Hn.
  replace (now <? getLastRefresh s + ACCESS_TIMEOUT) with false
    by (symmetry; apply Z.ltb_ge; lia).
  reflexivity.
Qed.

Lemma existsb_app_last :
  forall l p, existsb (Nat.eqb p) (l ++ [p])%list = true.
Proof.
  intros l p. apply existsb_exists. exists p. split.
  - apply in_or_app. right. left. reflexivity.
  - apply Nat.eqb_refl.
Qed.

(** A successful refresh (status 200) clears the expiry flag and the
    in-flight handle and fulfils the shared promise. The clock written at
    [now] then keeps [refresh()] a no-op until [now + ACCESS_TIMEOUT], from
    which point it starts a new network call with a new promise. *)
Theorem refresh_success_cycle :
  forall (s : store) (now now' : Z) (resp : response),
    refreshPromise s = None -> getLastRefresh s + ACCESS_TIMEOUT <= now ->
    resp_status resp = 200 ->
    let s2 := refresh_complete (next_id s) (NetResponse resp) (fst (refresh now s)) in
    expired s2 = false /\ refreshPromise s2 = None /\
    promise_state (promises s2) (next_id s) = Fulfilled None /\
    (now' < now + ACCESS_TIMEOUT -> refresh now' s2 = (s2, RetUndefined)) /\
    (now + ACCESS_TIMEOUT <= now' ->
       snd (refresh now' s2) = RetFollows (S (next_id s)) /\
       refresh_log (fst (refresh now' s2)) =
         (refresh_log s ++ [next_id s; S (next_id s)])%list).
Proof.
  intros s now now' resp Hn Hst H200 s2.
  assert (E : s2 = mkStore (Some now) false (status s) (error s) (progress s)
                     (uploadError s) None
                     ((next_id s, Fulfilled None) :: (next_id s, Pending) :: promises s)
                     (refresh_log s ++ [next_id s])%list
                     (filter (fun q => negb (Nat.eqb (next_id s) q))
                        (awaiting s ++ [next_id s])%list)
                     (S (next_id s))).
  { unfold s2. rewrite (refresh_stale_result s now Hn Hst). simpl fst.
    unfold refresh_complete. simpl. rewrite existsb_app_last. simpl.
    rewrite H200. reflexivity. }
  rewrite E. split; [reflexivity | split; [reflexivity | split]].
  { simpl. rewrite Nat.eqb_refl. reflexivity. }
  split.
  - intros Hlt. unfold refresh, getLastRefresh. simpl.
    replace (now' <? now + ACCESS_TIMEOUT) with true by (symmetry; apply Z.ltb_lt; lia).
    reflexivity.
  - intros Hge. unfold refresh, getLastRefresh. simpl.
    replace (now' <? now + ACCESS_TIMEOUT) with false by (symmetry; apply Z.ltb_ge; lia).
    simpl. rewrite <- app_assoc. split; reflexivity.
Qed.

Lemma refresh_success_cycle_witness :
  let s2 := refresh_complete 0 (NetResponse (mkResponse 200 "{}"))
              (fst (refresh 100000 stale_store)) in
  snd (refresh 170000 s2) = RetFollows 1.
Proof.
  apply (refresh_success_cycle stale_store 100000 170000 (mkResponse 200 "{}"));
    try reflexivity; vm_compute; discriminate.
Defined.

(** A refresh answered by an error status with a JSON body sets the expiry
    flag and the error field, rejects the shared promise with an error
    carrying the status, body and derived message, and clears the handle.
    The clock written before the call is not rolled back, so [refresh()]
    calls until [now + ACCESS_TIMEOUT] return at once without a network
    call. A logged-in AuthStore autorun re-runs and calls [logout()]
    exactly when the flag was not already set. *)
Theorem refresh_http_failure :
  forall (s : store) (now now' : Z) (resp : response) (body : json),
    refreshPromise s = None -> getLastRefresh s + ACCESS_TIMEOUT <= now ->
    resp_status resp <> 200 -> resp_json resp = Some body ->
    let s2 := refresh_complete (next_id s) (NetResponse resp) (fst (refresh now s)) in
    let m := responseErrorMsg (resp_status resp) body in
    expired s2 = true /\ error s2 = m /\ refreshPromise s2 = None /\
    promise_state (promises s2) (next_id s) =
      Rejected (RError (mkError (js_String m) (Some (resp_status resp)) (Some body))) /\
    (now' < now + ACCESS_TIMEOUT -> refresh now' s2 = (s2, RetUndefined)) /\
    auth_rerun true s s2 = if expired s then ReactNone else ReactLogout.
Proof.
  intros s now now' resp body Hn Hst H200 Hbody s2 m.
  assert (E : s2 = mkStore (Some now) true (status s) m (progress s)
                     (uploadError s) None
                     ((next_id s, Rejected (RError (mkError (js_String m)
                          (Some (resp_status resp)) (Some body))))
                        :: (next_id s, Pending) :: promises s)
                     (refresh_log s ++ [next_id s])%list
                     (filter (fun q => negb (Nat.eqb (next_id s) q))
                        (awaiting s ++ [next_id s])%list)
                     (S (next_id s))).
  { unfold s2. rewrite (refresh_stale_result s now Hn Hst). simpl fst.
    unfold refresh_complete. simpl. rewrite existsb_app_last. simpl.
    replace (resp_status resp =? 200) with false by (symmetry; apply Z.eqb_neq; exact H200).
    rewrite Hbody. reflexivity. }
  rewrite E. split; [reflexivity | split; [reflexivity | split; [reflexivity | split]]].
  { simpl. rewrite Nat.eqb_refl. reflexivity. }
  split.
  2:{ unfold auth_rerun, autorun_deps_changed, auth_autorun. simpl.
      rewrite Z.eqb_refl. destruct (expired s); reflexivity. }
  intros Hlt. unfold refresh, getLastRefresh. simpl.
  replace (now' <? now + ACCESS_TIMEOUT) with true by (symmetry; apply Z.ltb_lt; lia).
  reflexivity.
Qed.

Lemma refresh_http_failure_witness :
  let s2 := refresh_complete 0 (NetResponse (mkResponse 401 "{}"))
              (fst (refresh 100000 stale_store)) in
  auth_rerun true stale_store s2 = ReactLogout.
Proof.
  apply (refresh_http_failure stale_store 100000 100001 (mkResponse 401 "{}") (JObj []));
    try reflexivity; vm_compute; discriminate.
Defined.

(** The options of the request sent by [AuthStore.logout()]
    (src/AuthStore.js, lines 264-268). *)
Definition logout_options : list (string * json) :=
  [("method", JStr "POST"); ("body", JStr "{}")].

(** A refresh answered by an error status whose body is not JSON sets the
    expiry flag, but [response.json()] throws before [reject]: the shared
    promise never settles and the handle is never cleared, whatever happens
    afterwards. A logged-in AuthStore autorun calls [logout()] when the
    flag was not already set, but the request of [logout()] (no
    [skipRefresh]) waits on that promise forever. *)
Theorem refresh_unparsable_failure_sticks :
  forall (s : store) (now : Z) (resp : response) (evs : list event),
    refreshPromise s = None -> awaiting s = [] ->
    getLastRefresh s + ACCESS_TIMEOUT <= now ->
    resp_status resp <> 200 -> resp_json resp = None ->
    let s2 := refresh_complete (next_id s) (NetResponse resp) (fst (refresh now s)) in
    expired s2 = true /\
    auth_rerun true s s2 = (if expired s then ReactNone else ReactLogout) /\
    (forall t, snd (run [EvGate t logout_options true] s2) =
               [ObsGate (Some (RetFollows (next_id s))) Waiting]) /\
    stuck_on (next_id s) (fst (run evs s2)) /\
    Forall (stuck_observation (next_id s)) (snd (run evs s2)).
Proof.
  intros s now resp evs Hn Haw Hst H200 Hbody s2.
  assert (E : s2 = mkStore (Some now) true (status s) (error s) (progress s)
                     (uploadError s) (Some (next_id s))
                     ((next_id s, Pending) :: promises s)
                     (refresh_log s ++ [next_id s])%list [] (S (next_id s))).
  { unfold s2. rewrite (refresh_stale_result s now Hn Hst). simpl fst.
    unfold refresh_complete. simpl. rewrite existsb_app_last. simpl.
    replace (resp_status resp =? 200) with false by (symmetry; apply Z.eqb_neq; exact H200).
    rewrite Hbody, Haw. simpl. rewrite Nat.eqb_refl. reflexivity. }
  rewrite E. split; [reflexivity | split; [| split]].
  - unfold auth_rerun, autorun_deps_changed, auth_autorun. simpl.
    rewrite Z.eqb_refl. destruct (expired s); reflexivity.
  - intros t. simpl. unfold freshness_gate, refresh. simpl.
    rewrite Nat.eqb_refl. reflexivity.
  - apply run_stuck. unfold stuck_on. simpl. rewrite Nat.eqb_refl. auto.
Qed.

Lemma refresh_unparsable_failure_sticks_witness :
  let s2 := refresh_complete 0 (NetResponse (mkResponse 502 "<html>Bad Gateway</html>"))
              (fst (refresh 100000 stale_store)) in
  stuck_on 0 (fst (run [EvRefresh 100001; EvGate 100002 [] true] s2)).
Proof.
  apply (refresh_unparsable_failure_sticks stale_store 100000
           (mkResponse 502 "<html>Bad Gateway</html>") [EvRefresh 100001; EvGate 100002 [] true]);
    try reflexivity; vm_compute; discriminate.
Defined.

(** A stale refresh at [now] moves the session watcher's deadline: a later
    tick at [t] sets the expiry flag exactly when [now + REFRESH_TIMEOUT < t]
    (or the flag was already set). *)
Theorem refresh_moves_session_deadline :
  forall (s : store) (now t : Z),
    refreshPromise s = None -> getLastRefresh s + ACCESS_TIMEOUT <= now ->
    expired (watch_tick t (fst (refresh now s))) =
      expired s || (now + REFRESH_TIMEOUT <? t).
Proof.
  intros s now t Hn Hst. rewrite (refresh_stale_result s now Hn Hst).
  unfold watch_tick, getLastRefresh. simpl.
  destruct (now + REFRESH_TIMEOUT <? t); simpl;
    [rewrite orb_true_r | rewrite orb_false_r]; reflexivity.
Qed.

Lemma refresh_moves_session_deadline_witness :
  expired (watch_tick 999000 (fst (refresh 100000 stale_store))) = false.
Proof.
  rewrite (refresh_moves_session_deadline stale_store 100000 999000);
    [vm_compute; reflexivity | reflexivity | vm_compute; discriminate].
Defined.

(* ------------------------------------------------------------------ *)
(** * Upload progress (part_000, lines 144-149) *)

Definition set_progress (n : Z) (s : store) : store :=
  mkStore s.(lastRefreshed) s.(expired) s.(status) s.(error) n s.(uploadError)
    s.(refreshPromise) s.(promises) s.(refresh_log) s.(awaiting) s.(next_id).

(** [Math.round(a / b)] for integers [a] and [b > 0]: [floor(a / b + 1/2)]. *)
Definition math_round_div (a b : Z) : Z := (2 * a + b) / (2 * b).

(** The progress listener: [Math.round((event.loaded * 100.0) / event.total)],
    with the byte counts as integers and the quotient taken exactly. *)
Definition upload_on_progress (loaded total : Z) (s : store) : store :=
  set_progress (math_round_div (loaded * 100) total) s.

(** For a progress event with [0 <= loaded <= total] and [total > 0] the
    progress field lies in [0, 100], grows with [loaded], is 0 at the start
    and 100 once everything is sent; the completion handler leaves it as it
    is, so it still reads 100 when a finished upload settles. *)
Theorem upload_progress_bounds :
  forall (loaded loaded' total : Z) (s : store) (rs st : Z) (text : string),
    0 < total -> 0 <= loaded <= total ->
    0 <= progress (upload_on_progress loaded total s) <= 100 /\
    (loaded <= loaded' ->
       progress (upload_on_progress loaded total s) <=
       progress (upload_on_progress loaded' total s)) /\
    progress (upload_on_progress 0 total s) = 0 /\
    progress (upload_on_progress total total s) = 100 /\
    progress (fst (upload_on_readystate rs st text (upload_on_progress total total s))) = 100.
Proof.
  intros l l' t s rs st text Ht Hl.
  unfold upload_on_progress, set_progress, math_round_div. cbn [progress].
  assert (H100 : (2 * (t * 100) + t) / (2 * t) = 100).
  { symmetry. apply Z.div_unique with (r := t); lia. }
  repeat split.
  - apply Z.div_pos; lia.
  - apply Z.lt_succ_r. apply Z.div_lt_upper_bound; lia.
  - intros Hle. apply Z.div_le_mono; lia.
  - rewrite Z.mul_0_l, Z.mul_0_r, Z.add_0_l. apply Z.div_small. lia.
  - exact H100.
  - unfold upload_on_readystate.
    destruct ((rs =? 4) && (st =? 200)); [| destruct ((rs =? 4) && negb (st =? 200))];
      cbn [fst progress set_uploadError set_status]; exact H100.
Qed.

Lemma upload_progress_bounds_witness :
  0 <= progress (upload_on_progress 512 1024 stale_store) <= 100.
Proof.
  apply (proj1 (upload_progress_bounds 512 512 1024 stale_store 4 200 EmptyString
                  ltac:(lia) ltac:(lia))).
Defined.

(* ------------------------------------------------------------------ *)
(** * Last path segment: [s.substr(s.lastIndexOf('/') + 1)] *)

(** [String.prototype.lastIndexOf] for one character: -1 when absent. *)
Fixpoint lastIndexOf_from (c : ascii) (s : string) (i acc : Z) : Z :=
  match s with
  | EmptyString => acc
  | String c' s' =>
      lastIndexOf_from c s' (i + 1) (if Ascii.eqb c c' then i else acc)
  end.

Definition lastIndexOf (c : ascii) (s : string) : Z := lastIndexOf_from c s 0 (-1).

(** [String.prototype.substr(start)]: a negative start counts from the end. *)
Definition substr (s : string) (start : Z) : string :=
  let len := Z.of_nat (String.length s) in
  let st := if start <? 0 then Z.max 0 (len + start) else start in
  substring (Z.to_nat st) (String.length s) s.

Definition last_segment (s : string) : string :=
  substr s (lastIndexOf "/"%char s + 1).

(** ConfigStore getters [sponsorId] and [siteId] (src/ConfigStore.js,
    lines 32-44): the empty string for an empty field. *)
Definition path_id (field : string) : string :=
  if String.eqb field EmptyString then EmptyString else last_segment field.

Fixpoint has_char (c : ascii) (s : string) : bool :=
  match s with
  | EmptyString => false
  | String c' s' => Ascii.eqb c c' || has_char c s'
  end.

Lemma lastIndexOf_from_cases :
  forall c s i acc,
    (has_char c s = false /\ lastIndexOf_from c s i acc = acc) \/
    (exists p q, s = p ++ String c q /\ has_char c q = false /\
                 lastIndexOf_from c s i acc = i + Z.of_nat (String.length p)).
Proof.
  intros c s. induction s as [| c' s' IH]; intros i acc; simpl.
  - left. split; reflexivity.
  - destruct (IH (i + 1) (if Ascii.eqb c c' then i else acc))
      as [[Hn Hr] | (p & q & Hs & Hq & Hr)].
    + destruct (Ascii.eqb c c') eqn:E.
      * right. exists EmptyString, s'. apply Ascii.eqb_eq in E. subst c'.
        split; [reflexivity | split; [exact Hn |]]. rewrite Hr. simpl. lia.
      * left. simpl. rewrite Hn. split; [reflexivity | exact Hr].
    + right. exists (String c' p), q. subst s'.
      split; [reflexivity | split; [exact Hq |]]. rewrite Hr. simpl. lia.
Qed.

Lemma substring_0_all :
  forall s n, (String.length s <= n)%nat -> substring 0 n s = s.
Proof.
  induction s as [| c s IH]; intros n Hn; simpl in *.
  - destruct n; reflexivity.
  - destruct n as [| n]; [lia |]. rewrite IH by lia. reflexivity.
Qed.

Lemma substring_after :
  forall p c q n,
    substring (S (String.length p)) n (p ++ String c q) = substring 0 n q.
Proof.
  induction p as [| c' p IH]; intros c q n; simpl; [reflexivity |].
  apply IH.
Qed.

Lemma length_app_string :
  forall p q, String.length (p ++ q) = (String.length p + String.length q)%nat.
Proof. induction p as [| c p IH]; intros q; simpl; [reflexivity | rewrite IH; reflexivity]. Qed.

Lemma string_app_assoc :
  forall a b c : string, a ++ (b ++ c) = (a ++ b) ++ c.
Proof. induction a as [| x a IH]; intros b c; simpl; [reflexivity | rewrite IH; reflexivity]. Qed.

(** The segment after the last [/] holds no [/], and the string is a
    prefix (empty, or ending in [/]) followed by it; without [/] it is the
    whole string. *)
Theorem last_segment_spec :
  forall (s : string),
    has_char "/"%char (last_segment s) = false /\
    exists p, s = p ++ last_segment s /\
              (p = EmptyString \/ exists q, p = q ++ "/").
Proof.
  intros s. unfold last_segment, lastIndexOf, substr.
  destruct (lastIndexOf_from_cases "/"%char s 0 (-1))
    as [[Hn Hr] | (p & q & Hs & Hq & Hr)]; rewrite Hr.
  - simpl. rewrite substring_0_all by lia.
    split; [exact Hn |]. exists EmptyString. split; [reflexivity | left; reflexivity].
  - replace (0 + Z.of_nat (String.length p) + 1 <? 0) with false
      by (symmetry; apply Z.ltb_ge; lia).
    replace (Z.to_nat (0 + Z.of_nat (String.length p) + 1)) with (S (String.length p)) by lia.
    subst s. rewrite substring_after.
    rewrite substring_0_all by (rewrite length_app_string; simpl; lia).
    split; [exact Hq |]. exists (p ++ "/"). split.
    + rewrite <- string_app_assoc. reflexivity.
    + right. exists p. reflexivity.
Qed.

Example path_id_examples :
  path_id "https://sso.example.com/sponsors/CM_42" = "CM_42" /\
  path_id "plain" = "plain" /\ path_id EmptyString = EmptyString.
Proof. repeat split; reflexivity. Qed.

(* ------------------------------------------------------------------ *)
(** * ConfigStore.init: the sponsor list (src/ConfigStore.js, lines 46-89) *)

(** A sponsor object built by [init]; the fallback entry has no [url] key. *)
Record sponsor_rec := mkSponsor {
  sp_id : string;
  sp_url : option string;
  sp_name : jsval
}.

(** [({ URL, NAME }) => ({ id: URL.substr(...), url: URL, name: NAME })];
    [None] where it throws (a null entry, or [URL] not a string). *)
Definition sponsor_of_entry (e : json) : option sponsor_rec :=
  match e with
  | JNull => None
  | _ =>
      match js_get (Some e) "URL" with
      | Some (JStr u) => Some (mkSponsor (last_segment u) (Some u) (js_get (Some e) "NAME"))
      | _ => None
      end
  end.

Fixpoint map_option {A B : Type} (f : A -> option B) (l : list A) : option (list B) :=
  match l with
  | [] => Some []
  | x :: l' =>
      match f x, map_option f l' with
      | Some y, Some ys => Some (y :: ys)
      | _, _ => None
      end
  end.

(** The value [init] gives [this.sponsors] from the fields [SPONSORS],
    [SPONSOR] and [SITE_NAME] of the config body ([SPONSORS = []] and
    [SPONSOR = ''] when undefined); [None] where the code throws. *)
Definition init_sponsors (SPONSORS SPONSOR SITE_NAME : jsval) : option (list sponsor_rec) :=
  let fallback :=
    match SPONSOR with
    | None => Some [mkSponsor EmptyString None SITE_NAME]
    | Some (JStr s) => Some [mkSponsor (last_segment s) None SITE_NAME]
    | Some _ => None
    end in
  match SPONSORS with
  | None => fallback
  | Some (JArr []) => fallback
  | Some (JArr l) => map_option sponsor_of_entry l
  | Some (JStr s) => if String.eqb s EmptyString then fallback else None
  | Some JNull => None
  | Some (JObj o) => if truthy (obj_get o "length") then None else fallback
  | Some (JBool _) | Some (JNum _) => fallback
  end.

Lemma map_option_length :
  forall {A B} (f : A -> option B) l l',
    map_option f l = Some l' -> List.length l' = List.length l.
Proof.
  intros A B f. induction l as [| x l IH]; intros l' H; simpl in H.
  - injection H as <-. reflexivity.
  - destruct (f x), (map_option f l) eqn:E; try discriminate.
    injection H as <-. simpl. rewrite (IH l0 eq_refl). reflexivity.
Qed.

Lemma map_option_forall :
  forall {A B} (f : A -> option B) (P : B -> Prop) l l',
    (forall x y, f x = Some y -> P y) ->
    map_option f l = Some l' -> Forall P l'.
Proof.
  intros A B f P. induction l as [| x l IH]; intros l' Hf H; simpl in H.
  - injection H as <-. constructor.
  - destruct (f x) eqn:Ex, (map_option f l) eqn:E; try discriminate.
    injection H as <-. constructor; [exact (Hf x b Ex) | exact (IH l0 Hf eq_refl)].
Qed.

(** When [init] succeeds the sponsor list is never empty: one entry per
    element of a non-empty [SPONSORS] array, each id the last path segment
    of its URL; otherwise the single fallback entry named after the site,
    without [url], whose id is the last path segment of [SPONSOR] (empty
    when [SPONSOR] is missing). No id holds a [/]. *)
Theorem init_sponsors_shape :
  forall (SPONSORS SPONSOR SITE_NAME : jsval) (l : list sponsor_rec),
    init_sponsors SPONSORS SPONSOR SITE_NAME = Some l ->
    l <> [] /\
    Forall (fun r => has_char "/"%char (sp_id r) = false) l /\
    (forall es, SPONSORS = Some (JArr es) -> es <> [] -> List.length l = List.length es) /\
    (forall es, SPONSORS = Some (JArr es) -> es <> [] ->
       Forall (fun r => exists u, sp_url r = Some u /\ sp_id r = last_segment u) l) /\
    ((forall e es, SPONSORS <> Some (JArr (e :: es))) ->
       l = [mkSponsor (match SPONSOR with
                       | Some (JStr s) => last_segment s
                       | _ => EmptyString
                       end) None SITE_NAME]).
Proof.
  intros SP SPONSOR SN l H.
  assert (Hfb : forall x, match SPONSOR with
                          | None => Some [mkSponsor EmptyString None SN]
                          | Some (JStr s) => Some [mkSponsor (last_segment s) None SN]
                          | Some _ => None
                          end = Some x ->
                  x <> [] /\ Forall (fun r => has_char "/"%char (sp_id r) = false) x /\
                  x = [mkSponsor (match SPONSOR with
                                  | Some (JStr s) => last_segment s
                                  | _ => EmptyString
                                  end) None SN]).
  { intros x Hx. destruct SPONSOR as [[] |]; try discriminate;
      injection Hx as <-; (split; [discriminate | split; [constructor; [| constructor] | reflexivity]]);
      [apply last_segment_spec | reflexivity]. }
  unfold init_sponsors in H.
  destruct SP as [[| b | z | s | es | o] |].
  - discriminate.
  - destruct (Hfb l H) as (H1 & H2 & H3). repeat split; auto; intros es' E; discriminate.
  - destruct (Hfb l H) as (H1 & H2 & H3). repeat split; auto; intros es' E; discriminate.
  - destruct (String.eqb s EmptyString); [| discriminate].
    destruct (Hfb l H) as (H1 & H2 & H3). repeat split; auto; intros es' E; discriminate.
  - destruct es as [| e es].
    + destruct (Hfb l H) as (H1 & H2 & H3).
      split; [exact H1 | split; [exact H2 | split; [| split; [| intros _; exact H3]]]];
        intros es' E Hne; injection E as <-; contradiction.
    + assert (Hlen := map_option_length _ _ _ H).
      split; [destruct l; [discriminate | discriminate] |].
      split; [| split; [| split]].
      * apply (map_option_forall sponsor_of_entry _ (e :: es) l); [| exact H].
        intros x y Hx. unfold sponsor_of_entry in Hx.
        destruct x; try discriminate;
          destruct (js_get _ "URL") as [[] |]; try discriminate;
          injection Hx as <-; apply last_segment_spec.
      * intros es' E _. injection E as <-. exact Hlen.
      * intros es' E _. apply (map_option_forall sponsor_of_entry _ (e :: es) l); [| exact H].
        intros x y Hx. unfold sponsor_of_entry in Hx.
        destruct x; try discriminate;
          destruct (js_get _ "URL") as [[] |]; try discriminate;
          injection Hx as <-; eexists; split; reflexivity.
      * intros Hnot. exfalso. exact (Hnot e es eq_refl).
  - destruct (truthy (obj_get o "length")); [discriminate |].
    destruct (Hfb l H) as (H1 & H2 & H3). repeat split; auto; intros es' E; discriminate.
  - destruct (Hfb l H) as (H1 & H2 & H3). repeat split; auto; intros es' E; discriminate.
Qed.

Lemma init_sponsors_shape_witness :
  Forall (fun r => exists u, sp_url r = Some u /\ sp_id r = last_segment u)
    [mkSponsor "ENT_1" (Some "https://sso.example/sponsors/ENT_1") (Some (JStr "Acme"))].
Proof.
  apply (proj1 (proj2 (proj2 (proj2
    (init_sponsors_shape
       (Some (JArr [JObj [("URL", JStr "https://sso.example/sponsors/ENT_1");
                          ("NAME", JStr "Acme")]]))
       None (Some (JStr "Site"))
       [mkSponsor "ENT_1" (Some "https://sso.example/sponsors/ENT_1") (Some (JStr "Acme"))]
       eq_refl))))
    [JObj [("URL", JStr "https://sso.example/sponsors/ENT_1"); ("NAME", JStr "Acme")]]
    eq_refl).
  discriminate.
Defined.

(* ------------------------------------------------------------------ *)
(** * SponsorStore: community / enterprise ids (part_000, lines 462-471) *)

(** [String.prototype.indexOf(sub)]: -1 when absent. *)
Definition js_indexOf (s sub : string) : Z :=
  match index 0 sub s with Some n => Z.of_nat n | None => -1 end.

(** [sponsorId && sponsorId.indexOf('CM_') === 0]; [None] where it throws
    (a truthy id that is not a string). A falsy id is returned as is. *)
Definition isCommunity (sponsorId : jsval) : option jsval :=
  if truthy sponsorId then
    match sponsorId with
    | Some (JStr s) => Some (Some (JBool (js_indexOf s "CM_" =? 0)))
    | _ => None
    end
  else Some sponsorId.

(** [sponsorId && sponsorId.indexOf('CM_') !== 0]. *)
Definition isEnterprise (sponsorId : jsval) : option jsval :=
  if truthy sponsorId then
    match sponsorId with
    | Some (JStr s) => Some (Some (JBool (negb (js_indexOf s "CM_" =? 0))))
    | _ => None
    end
  else Some sponsorId.

Lemma index0_prefix :
  forall p s, p <> EmptyString -> (index 0 p s = Some 0%nat <-> prefix p s = true).
Proof.
  intros p s Hp. destruct s as [| c s].
  - destruct p; [contradiction |]. split; intros H; discriminate.
  - change (index 0 p (String c s)) with
      (if prefix p (String c s) then Some 0%nat
       else match index 0 p s with Some n => Some (S n) | None => None end).
    destruct (prefix p (String c s)); [split; reflexivity |].
    destruct (index 0 p s); split; intros H; discriminate.
Qed.

(** Every non-empty string id is exactly one of community or enterprise,
    community precisely when it starts with [CM_]; for an empty or missing
    id both checks return that falsy id. *)
Theorem community_enterprise_partition :
  forall (id : string),
    (id <> EmptyString ->
       isCommunity (Some (JStr id)) = Some (Some (JBool (prefix "CM_" id))) /\
       isEnterprise (Some (JStr id)) = Some (Some (JBool (negb (prefix "CM_" id))))) /\
    isCommunity (Some (JStr EmptyString)) = Some (Some (JStr EmptyString)) /\
    isEnterprise (Some (JStr EmptyString)) = Some (Some (JStr EmptyString)) /\
    isCommunity None = Some None /\ isEnterprise None = Some None.
Proof.
  intros id.
  assert (Hidx : (js_indexOf id "CM_" =? 0) = prefix "CM_" id).
  { unfold js_indexOf. destruct (prefix "CM_" id) eqn:E.
    - apply index0_prefix in E; [| discriminate]. rewrite E. reflexivity.
    - destruct (index 0 "CM_" id) as [[| n] |] eqn:Ei.
      + apply index0_prefix in Ei; [| discriminate]. rewrite Ei in E. discriminate.
      + apply Z.eqb_neq. lia.
      + reflexivity. }
  split; [| repeat split; reflexivity].
  intros Hne. unfold isCommunity, isEnterprise, truthy.
  replace (String.eqb id EmptyString) with false
    by (symmetry; apply String.eqb_neq; exact Hne).
  rewrite Hidx. split; reflexivity.
Qed.

Lemma community_enterprise_partition_witness :
  isCommunity (Some (JStr "CM_7")) = Some (Some (JBool (prefix "CM_" "CM_7"))).
Proof.
  apply (proj1 (proj1 (community_enterprise_partition "CM_7") ltac:(discriminate))).
Defined.

(* ------------------------------------------------------------------ *)
(** * AuthStore.hasRole (src/AuthStore.js, lines 114-121) *)

(** [this.permissions.find(moduleRoles => moduleRoles.module === module)]:
    [None] where it throws (a null entry), [Some None] when nothing matches. *)
Fixpoint find_module (perms : list json) (m : string) : option (option json) :=
  match perms with
  | [] => Some None
  | JNull :: _ => None
  | e :: perms' =>
      match js_get (Some e) "module" with
      | Some (JStr x) => if String.eqb x m then Some (Some e) else find_module perms' m
      | _ => find_module perms' m
      end
  end.

(** [moduleRoles.roles.includes(role)]: array membership, or substring
    search when [roles] is a string; [None] where [includes] is missing. *)
Definition roles_includes (roles : json) (role : string) : option bool :=
  match roles with
  | JArr l => Some (existsb (fun j => match j with JStr x => String.eqb x role | _ => false end) l)
  | JStr s => Some (match index 0 role s with Some _ => true | None => false end)
  | _ => None
  end.

(** [hasRole(module, ...roles)]. *)
Definition hasRole (perms : list json) (m : string) (roles : list string) : option bool :=
  match find_module perms m with
  | None => None
  | Some None => Some false
  | Some (Some e) =>
      match js_get (Some e) "roles" with
      | Some rs =>
          if truthy (Some rs) then
            match map_option (roles_includes rs) roles with
            | Some bs => Some (existsb (fun b => b) bs)
            | None => None
            end
          else Some false
      | None => Some false
      end
  end.

Lemma map_option_includes :
  forall l roles,
    map_option (roles_includes (JArr l)) roles =
      Some (map (fun r => existsb (fun j => match j with JStr x => String.eqb x r | _ => false end) l) roles).
Proof. intros l. induction roles as [| r roles IH]; simpl; [reflexivity | rewrite IH; reflexivity]. Qed.

(** [hasRole] looks only at the first permission entry of the module: with
    no entry it is false; with a [roles] array it is true exactly when one
    of the requested roles is in that array; with no roles requested it is
    false. *)
Theorem hasRole_spec :
  forall (perms : list json) (m : string) (roles : list string),
    (find_module perms m = Some None -> hasRole perms m roles = Some false) /\
    (forall e l, find_module perms m = Some (Some e) ->
       js_get (Some e) "roles" = Some (JArr l) ->
       hasRole perms m roles =
         Some (existsb (fun r => existsb (fun j => match j with JStr x => String.eqb x r | _ => false end) l) roles)) /\
    (find_module perms m <> None -> hasRole perms m [] = Some false).
Proof.
  intros perms m roles. unfold hasRole. repeat split.
  - intros H. rewrite H. reflexivity.
  - intros e l H Hr. rewrite H, Hr. simpl. rewrite map_option_includes.
    f_equal. induction roles as [| r roles IH]; simpl; [reflexivity | rewrite IH; reflexivity].
  - intros H. destruct (find_module perms m) as [[e |] |]; [| reflexivity | contradiction].
    destruct (js_get (Some e) "roles"); [| reflexivity].
    destruct (truthy _); reflexivity.
Qed.

Lemma hasRole_spec_witness :
  hasRole [JObj [("module", JStr "admin"); ("roles", JArr [JStr "editor"])];
           JObj [("module", JStr "admin"); ("roles", JArr [JStr "owner"])]]
          "admin" ["owner"] = Some false.
Proof.
  rewrite (proj1 (proj2 (hasRole_spec
             [JObj [("module", JStr "admin"); ("roles", JArr [JStr "editor"])];
              JObj [("module", JStr "admin"); ("roles", JArr [JStr "owner"])]]
             "admin" ["owner"])) _ [JStr "editor"] eq_refl eq_refl).
  reflexivity.
Defined.

(* ------------------------------------------------------------------ *)
(** * SponsorStore: the [sponsors] getter in multi-sponsor mode
    (part_000, lines 389-407 and 489-495) *)

(** [appendTypeFlags(sponsor)]: the sponsor with [isCommunity] and
    [isEnterprise] of its id. *)
Record flagged := mkFlagged {
  fl_sponsor : sponsor_rec;
  fl_isCommunity : jsval;
  fl_isEnterprise : jsval
}.

Definition appendTypeFlags (sp : sponsor_rec) : option flagged :=
  match isCommunity (Some (JStr (sp_id sp))), isEnterprise (Some (JStr (sp_id sp))) with
  | Some c, Some e => Some (mkFlagged sp c e)
  | _, _ => None
  end.

(** [url === sponsor]: a missing [url] is [undefined]. *)
Definition url_matches (url : option string) (a : jsval) : bool :=
  match url, a with
  | Some u, Some (JStr x) => String.eqb u x
  | None, None => true
  | _, _ => false
  end.

(** [.filter(Boolean)] on a list of sponsor objects or [undefined]. *)
Fixpoint filter_defined {A : Type} (l : list (option A)) : list A :=
  match l with
  | [] => []
  | Some x :: l' => x :: filter_defined l'
  | None :: l' => filter_defined l'
  end.

(** The getter with [this.multiSponsor] true: the configured sponsors when
    [this.global], else the configured sponsor of each url in
    [authStore.sponsors], the unknown ones dropped. *)
Definition sponsors_multi (global : bool) (auth : list jsval) (config : list sponsor_rec)
  : option (list flagged) :=
  let sponsors :=
    if global then map Some config
    else map (fun a => find (fun c => url_matches (sp_url c) a) config) auth in
  map_option appendTypeFlags (filter_defined sponsors).

Lemma appendTypeFlags_some :
  forall sp, appendTypeFlags sp =
    Some (mkFlagged sp
            (if String.eqb (sp_id sp) EmptyString then Some (JStr EmptyString)
             else Some (JBool (js_indexOf (sp_id sp) "CM_" =? 0)))
            (if String.eqb (sp_id sp) EmptyString then Some (JStr EmptyString)
             else Some (JBool (negb (js_indexOf (sp_id sp) "CM_" =? 0))))).
Proof.
  intros sp. unfold appendTypeFlags, isCommunity, isEnterprise, truthy.
  destruct (String.eqb (sp_id sp) EmptyString) eqn:E; [| reflexivity].
  apply String.eqb_eq in E. rewrite E. reflexivity.
Qed.

Lemma map_option_appendTypeFlags :
  forall l, exists l', map_option appendTypeFlags l = Some l' /\ map fl_sponsor l' = l.
Proof.
  induction l as [| sp l IH]; simpl.
  - exists []. split; reflexivity.
  - destruct IH as [l' [H1 H2]]. rewrite appendTypeFlags_some, H1.
    eexists. split; [reflexivity |]. simpl. rewrite H2. reflexivity.
Qed.

Lemma filter_defined_length :
  forall {A} (l : list (option A)), (List.length (filter_defined l) <= List.length l)%nat.
Proof. intros A. induction l as [| [x |] l IH]; simpl; lia. Qed.

Lemma filter_defined_in :
  forall {A} (l : list (option A)) x, In x (filter_defined l) -> In (Some x) l.
Proof.
  intros A. induction l as [| [y |] l IH]; simpl; intros x H; [contradiction | |].
  - destruct H as [<- | H]; [left; reflexivity | right; apply IH, H].
  - right. apply IH, H.
Qed.

(** In multi-sponsor mode the getter never throws and keeps the sponsor
    objects unchanged apart from the two flags. Not global: every sponsor
    returned is a configured one whose [url] equals some entry of
    [authStore.sponsors], and there are at most as many as entries. Global:
    the configured sponsors, all of them, in order. *)
Theorem sponsors_multi_spec :
  forall (auth : list jsval) (config : list sponsor_rec),
    (exists l, sponsors_multi false auth config = Some l /\
       (List.length l <= List.length auth)%nat /\
       Forall (fun f => In (fl_sponsor f) config /\
                        exists a, In a auth /\ url_matches (sp_url (fl_sponsor f)) a = true) l) /\
    (exists l, sponsors_multi true auth config = Some l /\ map fl_sponsor l = config).
Proof.
  intros auth config. split.
  - unfold sponsors_multi.
    destruct (map_option_appendTypeFlags
                (filter_defined (map (fun a => find (fun c => url_matches (sp_url c) a) config) auth)))
      as [l [H1 H2]].
    exists l. split; [exact H1 |]. split.
    + rewrite <- (length_map fl_sponsor l), H2.
      etransitivity; [apply filter_defined_length |]. rewrite length_map. lia.
    + apply Forall_forall. intros f Hf.
      assert (Hin : In (fl_sponsor f) (filter_defined
                (map (fun a => find (fun c => url_matches (sp_url c) a) config) auth))).
      { rewrite <- H2. apply in_map. exact Hf. }
      apply filter_defined_in, in_map_iff in Hin.
      destruct Hin as [a [Hfind Ha]].
      apply find_some in Hfind. destruct Hfind as [Hc Hu].
      split; [exact Hc |]. exists a. split; assumption.
  - unfold sponsors_multi.
    destruct (map_option_appendTypeFlags config) as [l [H1 H2]].
    exists l. split; [| exact H2].
    replace (filter_defined (map Some config)) with config; [exact H1 |].
    clear. induction config as [| c config IH]; simpl; [reflexivity | rewrite <- IH; reflexivity].
Qed.
